(** * Pomodoro timer: a shallow embedding of [pkg/pomodoro/pomodoro.go]

    The Go type [Pomodoro] is a record; the exported methods, which take
    [p.Locker] for their whole body, are atomic transitions of a [World]
    that holds the timer, the contexts made by [context.WithCancel] and the
    goroutines launched by [Start].  [time.Now()] is an argument of every
    transition that reads the clock. *)

From Stdlib Require Import ZArith Lia Bool List Ascii String DecimalString.
From stdpp Require Import base decidable option gmap.
Import ListNotations.

Local Open Scope Z_scope.

(** ** Package [time]: durations and instants *)

Module GoTime.

(** [time.Duration] is an [int64] count of nanoseconds. *)
Definition Duration := Z.

(** [time.Time], as nanoseconds from an arbitrary origin. *)
Definition Time := Z.

Definition minDuration : Duration := - 2 ^ 63.
Definition maxDuration : Duration := 2 ^ 63 - 1.

(** Wrap-around of [int64] arithmetic. *)
Definition wrap64 (z : Z) : Z := (z + 2 ^ 63) mod 2 ^ 64 - 2 ^ 63.

(** Conversion [uint(x)] of an [int64] on a 64-bit platform. *)
Definition uint (z : Z) : Z := z mod 2 ^ 64.

Definition Nanosecond : Duration := 1.
Definition Microsecond : Duration := 1000 * Nanosecond.
Definition Millisecond : Duration := 1000 * Microsecond.
Definition Second : Duration := 1000 * Millisecond.
Definition Minute : Duration := 60 * Second.

(** [t.Add(d)]. *)
Definition Add (t : Time) (d : Duration) : Time := t + d.

(** [t.Sub(u)]: the difference, saturated to the range of [Duration]. *)
Definition Sub (t u : Time) : Duration :=
  if t - u <? minDuration then minDuration
  else if maxDuration <? t - u then maxDuration
  else t - u.

(** [time.Until(t)], with [now] the value of [time.Now()]. *)
Definition Until (now t : Time) : Duration := Sub t now.

End GoTime.
Export GoTime.

(** ** Package [fmt]: the two verbs used for the display *)

Module GoFmt.

Fixpoint repeatChar (c : ascii) (n : nat) : string :=
  match n with
  | O => EmptyString
  | S n' => String c (repeatChar c n')
  end.

(** Decimal digits of an unsigned integer. *)
Definition decimal (n : Z) : string :=
  NilEmpty.string_of_uint (N.to_uint (Z.to_N n)).

(** A width in a verb is a minimum: shorter text is padded on the left,
    longer text is printed in full. *)
Definition padLeft (c : ascii) (width : nat) (s : string) : string :=
  String.append (repeatChar c (width - String.length s)%nat) s.

(** [fmt.Sprintf("%2d", n)] for an unsigned [n]. *)
Definition Sprintf_2d (n : Z) : string := padLeft " "%char 2 (decimal n).

(** [fmt.Sprintf("%02d", n)] for an unsigned [n]. *)
Definition Sprintf_02d (n : Z) : string := padLeft "0"%char 2 (decimal n).

End GoFmt.
Export GoFmt.

(** ** Package [image/color]: gray levels *)

Record Gray := mkGray { Y : Z }.

(** The red channel of [color.Gray.RGBA()]: [y |= y << 8]. *)
Definition Gray_RGBA_r (c : Gray) : Z := Z.lor (Y c) (Z.shiftl (Y c) 8).

(** ** The timer *)

Definition audioEnabled : bool := false.

(** A [context.CancelFunc] is identified with the context it cancels. *)
Definition CtxId := nat.

(** The fields of [Pomodoro] that the methods read or write.  The three
    text widgets are kept by their [Text], the delimiter by its [Color]. *)
Record Pomodoro := mkPomodoro {
  Description : string;
  MinutesText : string;
  Delimiter : Gray;
  SecondsText : string;
  Deadline : Time;
  NextWorkInterval : Duration;
  NextRestInterval : Duration;
  IsWork : bool;
  TickerCancel : option CtxId
}.

Definition set_Description (v : string) (p : Pomodoro) : Pomodoro :=
  mkPomodoro v (MinutesText p) (Delimiter p) (SecondsText p) (Deadline p)
    (NextWorkInterval p) (NextRestInterval p) (IsWork p) (TickerCancel p).

Definition set_MinutesText (v : string) (p : Pomodoro) : Pomodoro :=
  mkPomodoro (Description p) v (Delimiter p) (SecondsText p) (Deadline p)
    (NextWorkInterval p) (NextRestInterval p) (IsWork p) (TickerCancel p).

Definition set_Delimiter (v : Gray) (p : Pomodoro) : Pomodoro :=
  mkPomodoro (Description p) (MinutesText p) v (SecondsText p) (Deadline p)
    (NextWorkInterval p) (NextRestInterval p) (IsWork p) (TickerCancel p).

Definition set_SecondsText (v : string) (p : Pomodoro) : Pomodoro :=
  mkPomodoro (Description p) (MinutesText p) (Delimiter p) v (Deadline p)
    (NextWorkInterval p) (NextRestInterval p) (IsWork p) (TickerCancel p).

Definition set_Deadline (v : Time) (p : Pomodoro) : Pomodoro :=
  mkPomodoro (Description p) (MinutesText p) (Delimiter p) (SecondsText p) v
    (NextWorkInterval p) (NextRestInterval p) (IsWork p) (TickerCancel p).

Definition set_NextWorkInterval (v : Duration) (p : Pomodoro) : Pomodoro :=
  mkPomodoro (Description p) (MinutesText p) (Delimiter p) (SecondsText p)
    (Deadline p) v (NextRestInterval p) (IsWork p) (TickerCancel p).

Definition set_NextRestInterval (v : Duration) (p : Pomodoro) : Pomodoro :=
  mkPomodoro (Description p) (MinutesText p) (Delimiter p) (SecondsText p)
    (Deadline p) (NextWorkInterval p) v (IsWork p) (TickerCancel p).

Definition set_IsWork (v : bool) (p : Pomodoro) : Pomodoro :=
  mkPomodoro (Description p) (MinutesText p) (Delimiter p) (SecondsText p)
    (Deadline p) (NextWorkInterval p) (NextRestInterval p) v (TickerCancel p).

Definition set_TickerCancel (v : option CtxId) (p : Pomodoro) : Pomodoro :=
  mkPomodoro (Description p) (MinutesText p) (Delimiter p) (SecondsText p)
    (Deadline p) (NextWorkInterval p) (NextRestInterval p) (IsWork p) v.

(** [timeLeft += 200 * time.Millisecond], in [int64]. *)
Definition biased (timeLeft : Duration) : Duration :=
  wrap64 (timeLeft + 200 * Millisecond).

(** [uint(timeLeft / time.Minute)]: Go's [/] truncates toward zero. *)
Definition minutesOf (timeLeft : Duration) : Z :=
  uint (Z.quot timeLeft Minute).

(** [uint((timeLeft % time.Minute) / time.Second)]: Go's [%] has the sign
    of the dividend. *)
Definition secondsOf (timeLeft : Duration) : Z :=
  uint (Z.quot (Z.rem timeLeft Minute) Second).

(** [func (p *Pomodoro) setTimeLeft(timeLeft time.Duration)] *)
Definition setTimeLeft (timeLeft : Duration) (p : Pomodoro) : Pomodoro :=
  let timeLeft := biased timeLeft in
  let minutes := minutesOf timeLeft in
  let seconds := secondsOf timeLeft in
  set_SecondsText (Sprintf_02d seconds)
    (set_MinutesText (Sprintf_2d minutes) p).

(** [func (p *Pomodoro) setIsWork(isWork bool)] *)
Definition setIsWork (isWork : bool) (p : Pomodoro) : Pomodoro :=
  let p :=
    if isWork
    then setTimeLeft (NextWorkInterval p) (set_Description "FOCUS" p)
    else setTimeLeft (NextRestInterval p) (set_Description "REST" p) in
  set_IsWork isWork p.

(** ** The runtime: contexts, goroutines, the log *)

(** Where a goroutine launched by [Start] stands: before its first
    [p.Tick()], blocked in the [select] of its loop, or returned. *)
Inductive Pc := AtFirstTick | AtSelect | Returned.

(** The closure [go func() { ... }()] of [Start]: the context it captured
    and the period of the ticker it reads from. *)
Record Goroutine := mkGoroutine {
  gCtx : CtxId;
  gPeriod : Duration;
  gPc : Pc
}.

Record World := mkWorld {
  timer : Pomodoro;
  nextCtx : CtxId;                (* contexts made so far *)
  cancelled : gset CtxId;         (* contexts whose CancelFunc was called *)
  tickLoops : list Goroutine;     (* goroutines launched by Start *)
  alarms : nat;                   (* goroutines launched to play the alarm *)
  logged : list string            (* lines written by log.Printf *)
}.

(** State passing over the world. *)
Definition Run (A : Type) : Type := World -> A * World.

Definition ret {A} (a : A) : Run A := fun w => (a, w).

Definition bind {A B} (m : Run A) (k : A -> Run B) : Run B :=
  fun w => let (a, w') := m w in k a w'.

Definition exec {A} (m : Run A) (w : World) : World := snd (m w).

Declare Scope run_scope.
Delimit Scope run_scope with run.
Notation "x <- m ;; k" := (bind m (fun x => k))
  (at level 100, m at next level, k at level 200, right associativity)
  : run_scope.
Notation "m ;; k" := (bind m (fun _ => k))
  (at level 100, k at level 200, right associativity) : run_scope.
Local Open Scope run_scope.

Definition getP : Run Pomodoro := fun w => (timer w, w).

Definition updP (f : Pomodoro -> Pomodoro) : Run unit :=
  fun w => (tt, mkWorld (f (timer w)) (nextCtx w) (cancelled w)
                  (tickLoops w) (alarms w) (logged w)).

(** [context.WithCancel(context.Background())] *)
Definition WithCancel : Run CtxId :=
  fun w => (nextCtx w, mkWorld (timer w) (S (nextCtx w)) (cancelled w)
                         (tickLoops w) (alarms w) (logged w)).

(** Calling the [CancelFunc] of context [c]. *)
Definition callCancel (c : CtxId) : Run unit :=
  fun w => (tt, mkWorld (timer w) (nextCtx w) ({[ c ]} ∪ cancelled w)
                  (tickLoops w) (alarms w) (logged w)).

(** [ticker := time.NewTicker(period); go func() { ... }()] *)
Definition goTickLoop (ctx : CtxId) (period : Duration) : Run unit :=
  fun w => (tt, mkWorld (timer w) (nextCtx w) (cancelled w)
                  (tickLoops w ++ [mkGoroutine ctx period AtFirstTick])
                  (alarms w) (logged w)).

(** [go func() { err := p.playAlarm(); ... }()] *)
Definition goAlarm : Run unit :=
  fun w => (tt, mkWorld (timer w) (nextCtx w) (cancelled w)
                  (tickLoops w) (S (alarms w)) (logged w)).

Definition logPrintf (line : string) : Run unit :=
  fun w => (tt, mkWorld (timer w) (nextCtx w) (cancelled w)
                  (tickLoops w) (alarms w) (logged w ++ [line])).

(** ** The methods *)

(** [func (p *Pomodoro) SetNextInterval(nextInterval time.Duration)] *)
Definition SetNextInterval (nextInterval : Duration) (now : Time) : Run unit :=
  p <- getP ;;
  (if IsWork p
   then updP (set_NextWorkInterval nextInterval)
   else updP (set_NextRestInterval nextInterval)) ;;
  updP (set_Deadline (Add now nextInterval)) ;;
  updP (setTimeLeft nextInterval).

(** [func (p *Pomodoro) SetTimeLeft(timeLeft time.Duration)] *)
Definition SetTimeLeft (timeLeft : Duration) : Run unit :=
  updP (setTimeLeft timeLeft).

(** [func (p *Pomodoro) Start(isWork bool)]; the ticker and the goroutine,
    made right after the unlock, belong to the same transition. *)
Definition Start (isWork : bool) (now : Time) : Run unit :=
  updP (setIsWork isWork) ;;
  ctx <- WithCancel ;;
  p <- getP ;;
  match TickerCancel p with
  | Some cancelFn => callCancel cancelFn
  | None => ret tt
  end ;;
  updP (set_TickerCancel (Some ctx)) ;;
  p <- getP ;;
  (if IsWork p
   then updP (set_Deadline (Add now (NextWorkInterval p)))
   else updP (set_Deadline (Add now (NextRestInterval p)))) ;;
  goTickLoop ctx Second.

(** [func (p *Pomodoro) StopTimer()] *)
Definition StopTimer : Run unit :=
  updP (set_Description "") ;;
  p <- getP ;;
  match TickerCancel p with
  | Some cancelFn => callCancel cancelFn
  | None => ret tt
  end ;;
  updP (set_TickerCancel None) ;;
  updP (set_Delimiter (mkGray 128)).

(** [func (p *Pomodoro) endTimer()], with the constant [audioEnabled] as
    an argument. *)
Definition endTimerWith (audio : bool) : Run unit :=
  p <- getP ;;
  match TickerCancel p with
  | Some cancelFn => callCancel cancelFn ;; updP (set_TickerCancel None)
  | None => ret tt
  end ;;
  (if audio then goAlarm else ret tt) ;;
  p <- getP ;;
  updP (setIsWork (negb (IsWork p))).

Definition endTimer : Run unit := endTimerWith audioEnabled.

(** [func (p *Pomodoro) EndTimer()] *)
Definition EndTimer : Run unit := endTimer.

(** [func (p *Pomodoro) Tick()] *)
Definition Tick (now : Time) : Run unit :=
  p <- getP ;;
  (if 10000 <? Gray_RGBA_r (Delimiter p)
   then updP (set_Delimiter (mkGray 22))
   else updP (set_Delimiter (mkGray 128))) ;;
  p <- getP ;;
  let timeLeft := Until now (Deadline p) in
  if timeLeft <=? 0
  then endTimer
  else updP (setTimeLeft timeLeft).

(** [func New() *Pomodoro]: the struct literal, the widgets' initial text
    and colour, then [p.SetNextInterval(60 * time.Minute)]. *)
Definition newPomodoro : Pomodoro :=
  {| Description := "";
     MinutesText := "";
     Delimiter := mkGray 128;
     SecondsText := "";
     Deadline := 0;
     NextWorkInterval := 0;
     NextRestInterval := 15 * Minute;
     IsWork := true;
     TickerCancel := None |}.

Definition New (now : Time) : World :=
  exec (SetNextInterval (60 * Minute) now)
    (mkWorld newPomodoro O ∅ [] O []).

(** The durations of the eight interval buttons made by [New]. *)
Definition buttonIntervals : list Duration :=
  [5 * Minute; 15 * Minute; 30 * Minute; 45 * Minute;
   60 * Minute; 75 * Minute; 90 * Minute; 105 * Minute].

(** ** The goroutine of [Start] *)

(** What wakes the [select]: [<-ctx.Done()] or [<-ticker.C]. *)
Inductive Wakeup := CtxDone | TickerC.

Definition setPc (i : nat) (pc : Pc) : Run unit :=
  fun w => (tt, mkWorld (timer w) (nextCtx w) (cancelled w)
                  (alter (fun g => mkGoroutine (gCtx g) (gPeriod g) pc) i
                     (tickLoops w))
                  (alarms w) (logged w)).

(** One step of goroutine [i]: the first [p.Tick()]; or, from the
    [select], return when its context is done, or take a tick and call
    [p.Tick()].  When both cases are ready Go takes either.  [None] when
    the step cannot be taken. *)
Definition stepGoroutine (i : nat) (ev : Wakeup) (now : Time) (w : World)
  : option World :=
  match tickLoops w !! i with
  | None => None
  | Some g =>
      match gPc g, ev with
      | AtFirstTick, _ => Some (exec (Tick now ;; setPc i AtSelect) w)
      | AtSelect, CtxDone =>
          if decide (gCtx g ∈ cancelled w)
          then Some (exec (setPc i Returned) w)
          else None
      | AtSelect, TickerC => Some (exec (Tick now) w)
      | Returned, _ => None
      end
  end.

(** ** The ticker of a goroutine *)

(** [time.NewTicker(d)]: the tick number [k] of a ticker with period [d]
    is due [k * d] after the ticker was made. *)
Definition tickerTime (made : Time) (period : Duration) (k : nat) : Time :=
  Add made (Z.of_nat k * period).

(** Goroutine [i], blocked in its [select], takes the ticks number [k] to
    [k + n - 1] of its ticker, one pass through the loop for each: the
    tick number [j] wakes the [select] and [p.Tick()] reads the clock
    [lag j] after that tick was due. *)
Fixpoint takeTicks (i : nat) (made : Time) (lag : nat -> Duration)
    (k n : nat) (w : World) : option World :=
  match n with
  | O => Some w
  | S n' =>
      match tickLoops w !! i with
      | None => None
      | Some g =>
          match gPc g with
          | AtSelect =>
              match stepGoroutine i TickerC
                      (Add (tickerTime made (gPeriod g) k) (lag k)) w with
              | Some w' => takeTicks i made lag (S k) n' w'
              | None => None
              end
          | _ => None
          end
      end
  end.

(** The run of goroutine [i] next to a ticker made at [made]: the first
    [p.Tick()], [lag 0] after that, then the first [n] ticks of the
    ticker. *)
Definition runLoop (i : nat) (made : Time) (lag : nat -> Duration) (n : nat)
    (w : World) : option World :=
  match tickLoops w !! i with
  | None => None
  | Some g =>
      match gPc g with
      | AtFirstTick =>
          match stepGoroutine i TickerC (Add made (lag O)) w with
          | Some w' => takeTicks i made lag 1 n w'
          | None => None
          end
      | _ => None
      end
  end.

(** What a tick before the deadline leaves as it was: all but the time
    shown and the colour of the delimiter. *)
Definition sameCountdown (w w' : World) : Prop :=
  Description (timer w') = Description (timer w) /\
  IsWork (timer w') = IsWork (timer w) /\
  Deadline (timer w') = Deadline (timer w) /\
  NextWorkInterval (timer w') = NextWorkInterval (timer w) /\
  NextRestInterval (timer w') = NextRestInterval (timer w) /\
  TickerCancel (timer w') = TickerCancel (timer w) /\
  cancelled w' = cancelled w /\
  tickLoops w' = tickLoops w /\
  nextCtx w' = nextCtx w.

(** ** The alarm *)

(** Go errors: [io.EOF], an error of a library, and [fmt.Errorf] with the
    verb [%w], which wraps [inner] behind the text before the verb. *)
Inductive error :=
| io_EOF
| libError (msg : string)
| Errorf_w (context : string) (inner : error).

(** [err.Error()] *)
Fixpoint errorText (e : error) : string :=
  match e with
  | io_EOF => "EOF"
  | libError msg => msg
  | Errorf_w context inner => String.append context (errorText inner)
  end.

(** [errors.Is(err, io.EOF)]: follows the chain of wrapped errors. *)
Fixpoint errors_Is_EOF (e : error) : bool :=
  match e with
  | io_EOF => true
  | libError _ => false
  | Errorf_w _ inner => errors_Is_EOF inner
  end.

(** What the decoder and the audio device answer during one playback:
    the [err] of [oggvorbis.NewReader], [n] and [err] of [oggDecoder.Read],
    the [err] of [oto.NewContext], how many times [player.IsPlaying()]
    says yes, and the [err] of [player.Close]. *)
Record AudioLib := mkAudioLib {
  NewReader_err : option error;
  Read_n : Z;
  Read_err : option error;
  NewContext_err : option error;
  IsPlaying_yes : nat;
  Close_err : option error
}.

(** [func (p *Pomodoro) playAlarm() error]; [None] is [nil].  It reads no
    field of [p].  The samples decoded ([Read_n] of them) and the polling
    of [player.IsPlaying()], which says yes [IsPlaying_yes] times and then
    no, decide no branch: the playback is taken to come to its end. *)
Definition playAlarm (lib : AudioLib) : option error :=
  match NewReader_err lib with
  | Some err =>
      Some (Errorf_w "unable to initialize a decoder of the ogg vorbis audio: " err)
  | None =>
      match Read_err lib with
      | Some err =>
          if negb (errors_Is_EOF err)
          then Some (Errorf_w "unable to decode the ogg vorbis file: " err)
          else
            match NewContext_err lib with
            | Some err => Some (Errorf_w "unable to initialize an oto context: " err)
            | None =>
                match Close_err lib with
                | Some err => Some (Errorf_w "unable to close the player: " err)
                | None => None
                end
            end
      | None =>
          match NewContext_err lib with
          | Some err => Some (Errorf_w "unable to initialize an oto context: " err)
          | None =>
              match Close_err lib with
              | Some err => Some (Errorf_w "unable to close the player: " err)
              | None => None
              end
          end
      end
  end.

(** The body of the goroutine launched by [endTimer]. *)
Definition alarmBody (lib : AudioLib) : Run unit :=
  match playAlarm lib with
  | Some err =>
      logPrintf (errorText (Errorf_w "unable to play the alarm sound: " err))
  | None => ret tt
  end.

(** One launched alarm goroutine runs to its end. *)
Definition stepAlarm (lib : AudioLib) (w : World) : option World :=
  match alarms w with
  | O => None
  | S n =>
      Some (exec (alarmBody lib)
              (mkWorld (timer w) (nextCtx w) (cancelled w) (tickLoops w) n
                 (logged w)))
  end.

(** The colour [Tick] gives the delimiter: dim when it is bright, bright
    when it is dim. *)
Definition blinked (c : Gray) : Gray :=
  if 10000 <? Gray_RGBA_r c then mkGray 22 else mkGray 128.

(** ** Runs of the program *)

(** What can happen next: a call of an exported method (from a button or
    from any other caller), a step of a goroutine launched by [Start], or
    the run of a launched alarm goroutine.  Each holds [p.Locker] for as
    long as it touches the timer, so each is one transition. *)
Inductive Action :=
| CallSetNextInterval (nextInterval : Duration) (now : Time)
| CallSetTimeLeft (timeLeft : Duration)
| CallStart (isWork : bool) (now : Time)
| CallStopTimer
| CallTick (now : Time)
| CallEndTimer
| StepGoroutine (i : nat) (ev : Wakeup) (now : Time)
| StepAlarm (lib : AudioLib).

Definition perform (a : Action) (w : World) : option World :=
  match a with
  | CallSetNextInterval d now => Some (exec (SetNextInterval d now) w)
  | CallSetTimeLeft d => Some (exec (SetTimeLeft d) w)
  | CallStart isWork now => Some (exec (Start isWork now) w)
  | CallStopTimer => Some (exec StopTimer w)
  | CallTick now => Some (exec (Tick now) w)
  | CallEndTimer => Some (exec EndTimer w)
  | StepGoroutine i ev now => stepGoroutine i ev now w
  | StepAlarm lib => stepAlarm lib w
  end.

Fixpoint performAll (acts : list Action) (w : World) : option World :=
  match acts with
  | [] => Some w
  | a :: acts' =>
      match perform a w with
      | Some w' => performAll acts' w'
      | None => None
      end
  end.

Definition isStart (a : Action) : bool :=
  match a with
  | CallStart _ _ => true
  | _ => false
  end.

(** A goroutine is alive until it returns; a tick loop keeps ticking for
    as long as its context is not cancelled. *)
Definition alive (g : Goroutine) : bool :=
  match gPc g with
  | Returned => false
  | _ => true
  end.

Definition uncancelled (w : World) (g : Goroutine) : bool :=
  bool_decide (gCtx g ∉ cancelled w).

(** The bookkeeping of contexts kept by [Start], [StopTimer] and
    [endTimer]. *)
Record Inv (w : World) : Prop := mkInv {
  inv_cancelled_made : forall c, c ∈ cancelled w -> (c < nextCtx w)%nat;
  inv_loops_made : forall g, g ∈ tickLoops w -> (gCtx g < nextCtx w)%nat;
  inv_one_loop_per_ctx : NoDup (gCtx <$> tickLoops w);
  inv_handle_loop : forall c, TickerCancel (timer w) = Some c ->
      (c ∉ cancelled w) /\ exists g, (g ∈ tickLoops w) /\ gCtx g = c;
  inv_other_loops : forall g, g ∈ tickLoops w -> gCtx g ∉ cancelled w ->
      TickerCancel (timer w) = Some (gCtx g);
  inv_returned : forall g, g ∈ tickLoops w -> gPc g = Returned ->
      gCtx g ∈ cancelled w
}.

(** * Properties *)

Ltac run_unfold :=
  unfold exec, SetNextInterval, SetTimeLeft, Start, StopTimer, Tick, EndTimer,
    endTimer, endTimerWith, alarmBody, bind, ret, getP, updP, WithCancel,
    callCancel, goTickLoop, goAlarm, logPrintf, setPc in *.

(** ** Formatting *)

Lemma biased_in_range (d : Duration) :
  - (200 * Millisecond) <= d <= maxDuration - 200 * Millisecond ->
  biased d = d + 200 * Millisecond.
Proof.
  intros H. unfold biased, wrap64, maxDuration, Millisecond, Microsecond,
    Nanosecond in *.
  rewrite Z.mod_small; lia.
Qed.

Lemma minutesOf_nonneg (t : Duration) :
  0 <= t <= maxDuration -> minutesOf t = t / Minute.
Proof.
  intros H. unfold minutesOf, uint.
  rewrite Z.quot_div_nonneg by (unfold Minute, Second, Millisecond,
    Microsecond, Nanosecond; lia).
  apply Z.mod_small. split.
  - apply Z.div_pos; [lia | reflexivity].
  - apply Z.le_lt_trans with t.
    + apply Z.div_le_upper_bound; [reflexivity |].
      unfold Minute, Second, Millisecond, Microsecond, Nanosecond. lia.
    + unfold maxDuration in H. lia.
Qed.

Lemma secondsOf_nonneg (t : Duration) :
  0 <= t -> secondsOf t = (t mod Minute) / Second.
Proof.
  intros H. unfold secondsOf, uint.
  assert (HM : 0 < Minute) by reflexivity.
  assert (HS : 0 < Second) by reflexivity.
  rewrite Z.rem_mod_nonneg by lia.
  pose proof (Z.mod_pos_bound t Minute HM) as Hb.
  rewrite Z.quot_div_nonneg by lia.
  apply Z.mod_small. split.
  - apply Z.div_pos; lia.
  - apply Z.le_lt_trans with (t mod Minute).
    + apply Z.div_le_upper_bound; [lia |].
      unfold Second, Millisecond, Microsecond, Nanosecond. lia.
    + unfold Minute, Second, Millisecond, Microsecond, Nanosecond in *. lia.
Qed.

Lemma secondsOf_bound (t : Duration) : 0 <= t -> 0 <= secondsOf t < 60.
Proof.
  intros H. rewrite secondsOf_nonneg by assumption.
  assert (HM : 0 < Minute) by reflexivity.
  pose proof (Z.mod_pos_bound t Minute HM) as Hb.
  split.
  - apply Z.div_pos; [lia | reflexivity].
  - apply Z.div_lt_upper_bound; [reflexivity |].
    unfold Minute in *. lia.
Qed.

(** Every number below a bound satisfies a check that holds on the whole
    enumeration of the numbers below that bound. *)
Lemma below_checked (f : Z -> bool) (bound : nat) (n : Z) :
  forallb (fun k => f (Z.of_nat k)) (seq 0 bound) = true ->
  0 <= n < Z.of_nat bound -> f n = true.
Proof.
  intros Hall Hn.
  rewrite forallb_forall in Hall.
  specialize (Hall (Z.to_nat n)).
  rewrite Z2Nat.id in Hall by lia.
  apply Hall. apply in_seq. lia.
Qed.

Lemma Sprintf_2d_two (n : Z) :
  0 <= n < 100 -> String.length (Sprintf_2d n) = 2%nat.
Proof.
  intros H.
  apply Nat.eqb_eq.
  apply (below_checked
           (fun n => Nat.eqb (String.length (Sprintf_2d n)) 2) 100 n);
    [vm_compute; reflexivity | assumption].
Qed.

Lemma Sprintf_2d_three (n : Z) :
  100 <= n < 1000 -> String.length (Sprintf_2d n) = 3%nat.
Proof.
  intros H.
  assert (Hc : (n <? 100) || Nat.eqb (String.length (Sprintf_2d n)) 3 = true).
  { apply (below_checked
             (fun n => (n <? 100) || Nat.eqb (String.length (Sprintf_2d n)) 3)
             1000 n); [vm_compute; reflexivity | lia]. }
  apply orb_true_iff in Hc as [Hc | Hc].
  - apply Z.ltb_lt in Hc. lia.
  - apply Nat.eqb_eq. exact Hc.
Qed.

Lemma Sprintf_02d_two (n : Z) :
  0 <= n < 100 -> String.length (Sprintf_02d n) = 2%nat.
Proof.
  intros H.
  apply Nat.eqb_eq.
  apply (below_checked
           (fun n => Nat.eqb (String.length (Sprintf_02d n)) 2) 100 n);
    [vm_compute; reflexivity | assumption].
Qed.

Ltac units :=
  unfold maxDuration, minDuration, Minute, Second, Millisecond, Microsecond,
    Nanosecond in *.

Lemma setTimeLeft_frame (d : Duration) (p : Pomodoro) :
  Description (setTimeLeft d p) = Description p /\
  Delimiter (setTimeLeft d p) = Delimiter p /\
  Deadline (setTimeLeft d p) = Deadline p /\
  NextWorkInterval (setTimeLeft d p) = NextWorkInterval p /\
  NextRestInterval (setTimeLeft d p) = NextRestInterval p /\
  IsWork (setTimeLeft d p) = IsWork p /\
  TickerCancel (setTimeLeft d p) = TickerCancel p.
Proof. repeat split. Qed.

Lemma biased_split (d : Duration) (p : Pomodoro) :
  - (200 * Millisecond) <= d <= maxDuration - 200 * Millisecond ->
  MinutesText (setTimeLeft d p)
    = Sprintf_2d ((d + 200 * Millisecond) / Minute) /\
  SecondsText (setTimeLeft d p)
    = Sprintf_02d (((d + 200 * Millisecond) mod Minute) / Second).
Proof.
  intros Hd. unfold setTimeLeft.
  cbn [MinutesText SecondsText set_SecondsText set_MinutesText].
  rewrite biased_in_range by exact Hd.
  rewrite minutesOf_nonneg by lia.
  rewrite secondsOf_nonneg by lia.
  split; reflexivity.
Qed.

(** C4: [setTimeLeft] adds 200 milliseconds to the remaining duration and
    only then splits it: the minutes shown are the whole minutes of
    [d + 200ms] and the seconds shown are the whole seconds of what is left
    over.  So 59.9 seconds are shown as [" 1"] and ["00"], and a remaining
    duration of exactly 0 as [" 0"] and ["00"]. *)
Theorem setTimeLeft_adds_bias (p : Pomodoro) :
  (forall d : Duration,
      - (200 * Millisecond) <= d <= maxDuration - 200 * Millisecond ->
      MinutesText (setTimeLeft d p)
        = Sprintf_2d ((d + 200 * Millisecond) / Minute) /\
      SecondsText (setTimeLeft d p)
        = Sprintf_02d (((d + 200 * Millisecond) mod Minute) / Second)) /\
  (MinutesText (setTimeLeft (59900 * Millisecond) p) = " 1"%string /\
   SecondsText (setTimeLeft (59900 * Millisecond) p) = "00"%string) /\
  (MinutesText (setTimeLeft 0 p) = " 0"%string /\
   SecondsText (setTimeLeft 0 p) = "00"%string).
Proof.
  split; [| split; split; reflexivity].
  intros d Hd. apply biased_split, Hd.
Qed.

Lemma setTimeLeft_adds_bias_witness :
  (- (200 * Millisecond) <= 50 * Millisecond
     <= maxDuration - 200 * Millisecond) /\
  MinutesText (setTimeLeft (50 * Millisecond) newPomodoro) = " 0"%string /\
  SecondsText (setTimeLeft (50 * Millisecond) newPomodoro) = "00"%string.
Proof.
  assert (H : - (200 * Millisecond) <= 50 * Millisecond
              <= maxDuration - 200 * Millisecond) by (units; lia).
  split; [exact H |].
  exact (proj1 (setTimeLeft_adds_bias newPomodoro) (50 * Millisecond) H).
Defined.

(** C7, as amended: while the remaining duration with its bias is below
    100 minutes, which covers countdowns from the seven buttons of 5 to 90
    minutes, the minutes text has exactly two characters and the seconds
    text exactly two; from 100 minutes on, as after the 105 minute button,
    the minutes text has three characters and the seconds text two. *)
Theorem display_text_widths (p : Pomodoro) (d : Duration) :
  (- (200 * Millisecond) <= d < 100 * Minute - 200 * Millisecond ->
   String.length (MinutesText (setTimeLeft d p)) = 2%nat /\
   String.length (SecondsText (setTimeLeft d p)) = 2%nat) /\
  (100 * Minute - 200 * Millisecond <= d < 1000 * Minute - 200 * Millisecond ->
   String.length (MinutesText (setTimeLeft d p)) = 3%nat /\
   String.length (SecondsText (setTimeLeft d p)) = 2%nat) /\
  (In d buttonIntervals -> d <> 105 * Minute ->
   String.length (MinutesText (setTimeLeft d p)) = 2%nat /\
   String.length (SecondsText (setTimeLeft d p)) = 2%nat).
Proof.
  assert (Hsec : forall d', - (200 * Millisecond) <= d'
                            <= maxDuration - 200 * Millisecond ->
            String.length (SecondsText (setTimeLeft d' p)) = 2%nat).
  { intros d' H. unfold setTimeLeft.
    cbn [SecondsText set_SecondsText].
    rewrite biased_in_range by exact H.
    apply Sprintf_02d_two.
    pose proof (secondsOf_bound (d' + 200 * Millisecond)). lia. }
  assert (Hmin : forall d', - (200 * Millisecond) <= d'
                            <= maxDuration - 200 * Millisecond ->
            MinutesText (setTimeLeft d' p)
              = Sprintf_2d ((d' + 200 * Millisecond) / Minute)).
  { intros d' H. unfold setTimeLeft.
    cbn [MinutesText set_SecondsText set_MinutesText].
    rewrite biased_in_range by exact H.
    rewrite minutesOf_nonneg by lia. reflexivity. }
  assert (Hlow : - (200 * Millisecond) <= d
                 < 100 * Minute - 200 * Millisecond ->
            String.length (MinutesText (setTimeLeft d p)) = 2%nat /\
            String.length (SecondsText (setTimeLeft d p)) = 2%nat).
  { intros H. split; [| apply Hsec; units; lia].
    rewrite Hmin by (units; lia).
    apply Sprintf_2d_two. split.
    - apply Z.div_pos; [lia | reflexivity].
    - apply Z.div_lt_upper_bound; [reflexivity | units; lia]. }
  split; [exact Hlow | split].
  - intros H. split; [| apply Hsec; units; lia].
    rewrite Hmin by (units; lia).
    apply Sprintf_2d_three. split.
    + apply Z.div_le_lower_bound; [reflexivity | units; lia].
    + apply Z.div_lt_upper_bound; [reflexivity | units; lia].
  - intros Hin Hne. apply Hlow.
    unfold buttonIntervals in Hin. cbn [In] in Hin. units.
    repeat destruct Hin as [Hin | Hin]; lia.
Qed.

Lemma display_text_widths_witness :
  (- (200 * Millisecond) <= 90 * Minute < 100 * Minute - 200 * Millisecond) /\
  String.length (MinutesText (setTimeLeft (90 * Minute) newPomodoro)) = 2%nat /\
  String.length (SecondsText (setTimeLeft (90 * Minute) newPomodoro)) = 2%nat.
Proof.
  assert (H : - (200 * Millisecond) <= 90 * Minute
              < 100 * Minute - 200 * Millisecond) by (units; lia).
  split; [exact H |].
  exact (proj1 (display_text_widths newPomodoro (90 * Minute)) H).
Defined.

(** C7, as first stated, fails: the 105 minute button followed by
    [Start(true)] hands the three characters ["105"] to the minutes text. *)
Lemma minutes_text_of_105_button :
  In (105 * Minute) buttonIntervals /\
  MinutesText
    (timer (exec (SetNextInterval (105 * Minute) 0 ;; Start true 0) (New 0)))
    = "105"%string /\
  String.length
    (MinutesText
       (timer (exec (SetNextInterval (105 * Minute) 0 ;; Start true 0) (New 0))))
    <> 2%nat.
Proof.
  split; [| split].
  - unfold buttonIntervals. cbn [In]. do 7 right. left. reflexivity.
  - vm_compute. reflexivity.
  - vm_compute. discriminate.
Qed.

(** ** Interval selection *)

(** C3: [SetNextInterval d] writes exactly one of the two configured
    intervals, the one chosen by [IsWork] when it is called: the work
    interval becomes [d] and the rest interval keeps its value when
    [IsWork] is true, and the other way round when it is false. *)
Theorem SetNextInterval_writes_one_interval
    (d : Duration) (now : Time) (w : World) :
  let p := timer w in
  let p' := timer (exec (SetNextInterval d now) w) in
  NextWorkInterval p' = (if IsWork p then d else NextWorkInterval p) /\
  NextRestInterval p' = (if IsWork p then NextRestInterval p else d) /\
  IsWork p' = IsWork p.
Proof.
  run_unfold. cbn. destruct (IsWork (timer w)) eqn:E; cbn; rewrite ?E; auto.
Qed.

(** C10: in every world, idle or running, [SetNextInterval d] sets the
    deadline to [now + d] and shows [d] at once (that is, the minutes and
    seconds of [d] with its bias); it neither starts nor stops a tick
    loop. *)
Theorem SetNextInterval_always_moves_deadline
    (d : Duration) (now : Time) (w : World) :
  let w' := exec (SetNextInterval d now) w in
  Deadline (timer w') = Add now d /\
  MinutesText (timer w') = Sprintf_2d (minutesOf (biased d)) /\
  SecondsText (timer w') = Sprintf_02d (secondsOf (biased d)) /\
  TickerCancel (timer w') = TickerCancel (timer w) /\
  tickLoops w' = tickLoops w /\
  cancelled w' = cancelled w.
Proof.
  run_unfold. cbn. destruct (IsWork (timer w)); cbn; auto 10.
Qed.

(** ** The bookkeeping of contexts *)

Lemma Inv_New (now : Time) : Inv (New now).
Proof.
  split; cbn.
  - intros c Hc. set_solver.
  - intros g Hg. apply elem_of_nil in Hg. contradiction.
  - constructor.
  - discriminate.
  - intros g Hg. apply elem_of_nil in Hg. contradiction.
  - intros g Hg. apply elem_of_nil in Hg. contradiction.
Qed.

(** A transition that leaves the runtime and the cancel handle alone. *)
Lemma Inv_same_runtime (w w' : World) :
  nextCtx w' = nextCtx w -> cancelled w' = cancelled w ->
  tickLoops w' = tickLoops w ->
  TickerCancel (timer w') = TickerCancel (timer w) ->
  Inv w -> Inv w'.
Proof.
  intros Hn Hc Hl Ht [I1 I2 I3 I4 I5 I6].
  split; rewrite ?Hn, ?Hc, ?Hl, ?Ht; assumption.
Qed.

(** A transition that calls the cancel handle, if any, and clears it. *)
Lemma Inv_clear_handle (w w' : World) :
  nextCtx w' = nextCtx w -> tickLoops w' = tickLoops w ->
  TickerCancel (timer w') = None ->
  cancelled w' = match TickerCancel (timer w) with
                 | Some c => {[ c ]} ∪ cancelled w
                 | None => cancelled w
                 end ->
  Inv w -> Inv w'.
Proof.
  intros Hn Hl Ht Hc [I1 I2 I3 I4 I5 I6].
  split; rewrite ?Hn, ?Hl, ?Ht, ?Hc.
  - intros c Hin. destruct (TickerCancel (timer w)) as [c0 |] eqn:E; [| auto].
    apply elem_of_union in Hin as [Hin | Hin]; [| auto].
    apply elem_of_singleton in Hin. subst c.
    destruct (I4 c0 eq_refl) as [_ [g [Hg Hgc]]]. subst c0. auto.
  - assumption.
  - assumption.
  - discriminate.
  - intros g Hg Hnot. exfalso.
    destruct (TickerCancel (timer w)) as [c0 |] eqn:E.
    + assert (Hold : gCtx g ∉ cancelled w).
      { intros Hin. apply Hnot, elem_of_union. right. exact Hin. }
      specialize (I5 g Hg Hold). injection I5 as ->.
      apply Hnot, elem_of_union. left. apply elem_of_singleton. reflexivity.
    + specialize (I5 g Hg Hnot). discriminate.
  - intros g Hg Hret. specialize (I6 g Hg Hret).
    destruct (TickerCancel (timer w)); [apply elem_of_union; right |];
      exact I6.
Qed.

Lemma Inv_SetNextInterval d now w : Inv w -> Inv (exec (SetNextInterval d now) w).
Proof.
  apply Inv_same_runtime; run_unfold; cbn;
    destruct (IsWork (timer w)); reflexivity.
Qed.

Lemma Inv_SetTimeLeft d w : Inv w -> Inv (exec (SetTimeLeft d) w).
Proof. apply Inv_same_runtime; reflexivity. Qed.

Lemma Inv_StopTimer w : Inv w -> Inv (exec StopTimer w).
Proof.
  apply Inv_clear_handle; run_unfold; cbn;
    destruct (TickerCancel (timer w)); reflexivity.
Qed.

Lemma Inv_endTimerWith audio w : Inv w -> Inv (exec (endTimerWith audio) w).
Proof.
  apply Inv_clear_handle; run_unfold; cbn;
    destruct (TickerCancel (timer w)) eqn:E, audio; cbn;
    destruct (IsWork (timer w)); cbn; rewrite ?E; reflexivity.
Qed.

Lemma Inv_Tick now w : Inv w -> Inv (exec (Tick now) w).
Proof.
  intros HI.
  assert (Hblink : forall y,
    Inv (mkWorld (set_Delimiter y (timer w)) (nextCtx w) (cancelled w)
           (tickLoops w) (alarms w) (logged w))).
  { intros y. revert HI. apply Inv_same_runtime; reflexivity. }
  unfold Tick, bind, getP, exec.
  destruct (10000 <? Gray_RGBA_r (Delimiter (timer w))); cbn;
    match goal with
    | |- context [Until now ?d <=? 0] => destruct (Until now d <=? 0)
    end;
    try (apply (Inv_endTimerWith audioEnabled); apply Hblink);
    (eapply Inv_same_runtime; [.. | apply (Hblink (mkGray 22))]; reflexivity).
Qed.

(** A transition that calls the cancel handle, if any, installs the
    handle of a context just made and launches its goroutine. *)
Lemma Inv_install_handle (w w' : World) :
  nextCtx w' = S (nextCtx w) ->
  tickLoops w' = tickLoops w ++ [mkGoroutine (nextCtx w) Second AtFirstTick] ->
  TickerCancel (timer w') = Some (nextCtx w) ->
  cancelled w' = match TickerCancel (timer w) with
                 | Some c => {[ c ]} ∪ cancelled w
                 | None => cancelled w
                 end ->
  Inv w -> Inv w'.
Proof.
  intros Hn Hl Ht Hc [I1 I2 I3 I4 I5 I6].
  assert (Hhandle : forall c, TickerCancel (timer w) = Some c ->
                              (c < nextCtx w)%nat).
  { intros c E. destruct (I4 c E) as [_ [g [Hg Hgc]]]. subst c. auto. }
  assert (Hsub : forall c, c ∈ cancelled w' -> (c < nextCtx w)%nat).
  { intros c. rewrite Hc.
    destruct (TickerCancel (timer w)) as [c0 |] eqn:E; [| apply I1].
    intros Hin. apply elem_of_union in Hin as [Hin | Hin]; [| auto].
    apply elem_of_singleton in Hin. subst c. auto. }
  assert (Hmono : forall c, c ∈ cancelled w -> c ∈ cancelled w').
  { intros c Hin. rewrite Hc.
    destruct (TickerCancel (timer w)); [apply elem_of_union; right |];
      exact Hin. }
  split; rewrite ?Hn, ?Hl, ?Ht.
  - intros c Hin. apply Hsub in Hin. lia.
  - intros g Hg. apply elem_of_app in Hg as [Hg | Hg].
    + apply I2 in Hg. lia.
    + apply list_elem_of_singleton in Hg. subst g. cbn. lia.
  - rewrite fmap_app. cbn. apply NoDup_app. split; [assumption |].
    split; [| apply NoDup_singleton].
    intros c Hin Hin'. apply list_elem_of_singleton in Hin'. subst c.
    apply list_elem_of_fmap in Hin as [g [Hgc Hg]].
    apply I2 in Hg. lia.
  - intros c E. injection E as <-. split.
    + intros Hin. apply Hsub in Hin. lia.
    + exists (mkGoroutine (nextCtx w) Second AtFirstTick). split; [| reflexivity].
      apply elem_of_app. right. apply list_elem_of_singleton. reflexivity.
  - intros g Hg Hnot. apply elem_of_app in Hg as [Hg | Hg].
    + exfalso. assert (Hold : gCtx g ∉ cancelled w) by auto.
      specialize (I5 g Hg Hold). apply Hnot. rewrite Hc, I5.
      apply elem_of_union. left. apply elem_of_singleton. reflexivity.
    + apply list_elem_of_singleton in Hg. subst g. reflexivity.
  - intros g Hg Hret. apply elem_of_app in Hg as [Hg | Hg].
    + auto.
    + apply list_elem_of_singleton in Hg. subst g. discriminate.
Qed.

Lemma Start_runtime isWork now w :
  let w' := exec (Start isWork now) w in
  nextCtx w' = S (nextCtx w) /\
  tickLoops w' = tickLoops w ++ [mkGoroutine (nextCtx w) Second AtFirstTick] /\
  TickerCancel (timer w') = Some (nextCtx w) /\
  cancelled w' = match TickerCancel (timer w) with
                 | Some c => {[ c ]} ∪ cancelled w
                 | None => cancelled w
                 end.
Proof.
  run_unfold.
  destruct isWork; cbn; destruct (TickerCancel (timer w)) eqn:E; cbn;
    rewrite ?E; cbn; auto.
Qed.

Lemma Inv_Start isWork now w : Inv w -> Inv (exec (Start isWork now) w).
Proof.
  destruct (Start_runtime isWork now w) as (Hn & Hl & Ht & Hc).
  apply Inv_install_handle; assumption.
Qed.

Lemma gCtx_alter_pc (pc : Pc) (i : nat) (l : list Goroutine) :
  gCtx <$> alter (fun g => mkGoroutine (gCtx g) (gPeriod g) pc) i l
  = gCtx <$> l.
Proof.
  revert i. induction l as [| g l IH]; intros [| i]; cbn; try reflexivity.
  f_equal. apply IH.
Qed.

Lemma elem_of_alter_pc (pc : Pc) (i : nat) (l : list Goroutine) (g' : Goroutine) :
  g' ∈ alter (fun g => mkGoroutine (gCtx g) (gPeriod g) pc) i l ->
  g' ∈ l \/
  exists g, l !! i = Some g /\ g' = mkGoroutine (gCtx g) (gPeriod g) pc.
Proof.
  intros Hin. apply list_elem_of_lookup in Hin as [j Hj].
  rewrite list_lookup_alter in Hj. case_decide.
  - subst j. destruct (l !! i) as [g |] eqn:E; [| discriminate].
    right. exists g. split; [reflexivity |]. cbn in Hj. congruence.
  - left. apply list_elem_of_lookup. eauto.
Qed.

(** Moving goroutine [i] on, to the [select] always and to its return
    only when its context is cancelled. *)
Lemma Inv_setPc (i : nat) (pc : Pc) (w : World) :
  (pc = Returned ->
   forall g, tickLoops w !! i = Some g -> gCtx g ∈ cancelled w) ->
  Inv w -> Inv (exec (setPc i pc) w).
Proof.
  intros Hret [I1 I2 I3 I4 I5 I6].
  assert (Hctx : forall g', g' ∈ tickLoops (exec (setPc i pc) w) ->
            exists g, g ∈ tickLoops w /\ gCtx g' = gCtx g /\
                      (g' = g \/ (tickLoops w !! i = Some g /\ gPc g' = pc))).
  { intros g' Hin. apply elem_of_alter_pc in Hin as [Hin | [g [Hg ->]]].
    - exists g'. auto.
    - exists g. split; [apply list_elem_of_lookup; eauto |]. cbn. auto. }
  split.
  - exact I1.
  - intros g' Hin. apply Hctx in Hin as (g & Hg & Hc & _). rewrite Hc. auto.
  - cbn. rewrite gCtx_alter_pc. exact I3.
  - intros c E. destruct (I4 c E) as [Hnot [g [Hg Hgc]]]. split; [exact Hnot |].
    apply list_elem_of_lookup in Hg as [j Hj].
    destruct (decide (i = j)) as [<- | Hne].
    + exists (mkGoroutine (gCtx g) (gPeriod g) pc). split; [| exact Hgc].
      apply list_elem_of_lookup. exists i. cbn.
      rewrite list_lookup_alter_eq, Hj. reflexivity.
    + exists g. split; [| exact Hgc].
      apply list_elem_of_lookup. exists j. cbn.
      rewrite list_lookup_alter_ne by exact Hne. exact Hj.
  - intros g' Hin Hnot. apply Hctx in Hin as (g & Hg & Hc & _).
    rewrite Hc in *. apply (I5 g Hg Hnot).
  - intros g' Hin Hpc. apply Hctx in Hin as (g & Hg & Hc & [-> | [Hi Hpc']]).
    + apply (I6 g Hg Hpc).
    + rewrite Hc. apply (Hret (eq_trans (eq_sym Hpc') Hpc) g Hi).
Qed.

Lemma exec_seq {A B} (m : Run A) (k : Run B) (w : World) :
  exec (m ;; k) w = exec k (exec m w).
Proof. unfold exec, bind. destruct (m w). reflexivity. Qed.

Lemma Inv_stepGoroutine i ev now w w' :
  stepGoroutine i ev now w = Some w' -> Inv w -> Inv w'.
Proof.
  unfold stepGoroutine. intros Hstep HI.
  destruct (tickLoops w !! i) as [g |] eqn:E; [| discriminate].
  destruct (gPc g), ev; try discriminate.
  - injection Hstep as <-. rewrite exec_seq.
    apply Inv_setPc; [discriminate |]. apply Inv_Tick, HI.
  - injection Hstep as <-. rewrite exec_seq.
    apply Inv_setPc; [discriminate |]. apply Inv_Tick, HI.
  - case_decide as Hin; [| discriminate]. injection Hstep as <-.
    apply Inv_setPc; [| exact HI].
    intros _ g' Hg'. congruence.
  - injection Hstep as <-. apply Inv_Tick, HI.
Qed.

Lemma Inv_stepAlarm lib w w' : stepAlarm lib w = Some w' -> Inv w -> Inv w'.
Proof.
  unfold stepAlarm. destruct (alarms w) as [| n]; [discriminate |].
  intros Hstep. injection Hstep as <-.
  apply Inv_same_runtime; run_unfold; destruct (playAlarm lib); reflexivity.
Qed.

Lemma Inv_perform a w w' : perform a w = Some w' -> Inv w -> Inv w'.
Proof.
  destruct a; cbn [perform]; intros Hstep;
    try (injection Hstep as <-).
  - apply Inv_SetNextInterval.
  - apply Inv_SetTimeLeft.
  - apply Inv_Start.
  - apply Inv_StopTimer.
  - apply Inv_Tick.
  - apply (Inv_endTimerWith audioEnabled).
  - eapply Inv_stepGoroutine; eassumption.
  - eapply Inv_stepAlarm; eassumption.
Qed.

(** The bookkeeping holds in every world the program can reach. *)
Lemma Inv_performAll acts w w' : performAll acts w = Some w' -> Inv w -> Inv w'.
Proof.
  revert w. induction acts as [| a acts IH]; intros w; cbn [performAll].
  - intros Heq. injection Heq as <-. auto.
  - destruct (perform a w) as [w1 |] eqn:E; [| discriminate].
    intros Hrest HI. apply (IH w1 Hrest). eapply Inv_perform; eassumption.
Qed.

(** ** Start *)

Lemma setIsWork_fields (isWork : bool) (p : Pomodoro) :
  setIsWork isWork p =
  mkPomodoro (if isWork then "FOCUS" else "REST")
    (Sprintf_2d (minutesOf (biased
       (if isWork then NextWorkInterval p else NextRestInterval p))))
    (Delimiter p)
    (Sprintf_02d (secondsOf (biased
       (if isWork then NextWorkInterval p else NextRestInterval p))))
    (Deadline p) (NextWorkInterval p) (NextRestInterval p) isWork
    (TickerCancel p).
Proof. destruct isWork; reflexivity. Qed.

Lemma Start_timer (isWork : bool) (now : Time) (w : World) :
  let interval :=
    if isWork then NextWorkInterval (timer w) else NextRestInterval (timer w) in
  timer (exec (Start isWork now) w) =
  set_Deadline (Add now interval)
    (set_TickerCancel (Some (nextCtx w)) (setIsWork isWork (timer w))).
Proof.
  run_unfold.
  destruct isWork; cbn; destruct (TickerCancel (timer w)); reflexivity.
Qed.

Lemma until_plain (now deadline : Time) :
  minDuration <= deadline - now <= maxDuration ->
  Until now deadline = deadline - now.
Proof.
  intros H. unfold Until, Sub.
  destruct (Z.ltb_spec (deadline - now) minDuration); [lia |].
  destruct (Z.ltb_spec maxDuration (deadline - now)); [lia | reflexivity].
Qed.

Lemma until_sign (now deadline : Time) :
  Until now deadline <= 0 <-> deadline <= now.
Proof.
  unfold Until, Sub.
  destruct (Z.ltb_spec (deadline - now) minDuration);
    [unfold minDuration in *; lia |].
  destruct (Z.ltb_spec maxDuration (deadline - now));
    unfold maxDuration in *; lia.
Qed.

Lemma quarter_hour_shown (t : Duration) (p : Pomodoro) :
  15 * Minute - 200 * Millisecond <= t <= 15 * Minute ->
  MinutesText (setTimeLeft t p) = "15"%string /\
  SecondsText (setTimeLeft t p) = "00"%string.
Proof.
  intros H.
  destruct (biased_split t p) as [HM HS]; [units; lia |].
  rewrite HM, HS.
  replace ((t + 200 * Millisecond) / Minute) with 15.
  - replace ((t + 200 * Millisecond) mod Minute / Second) with 0;
      [split; reflexivity |].
    symmetry. apply Z.div_small.
    rewrite Z.mod_eq by (units; lia).
    replace ((t + 200 * Millisecond) / Minute) with 15;
      [units; lia |].
    apply Z.div_unique with (r := t + 200 * Millisecond - 15 * Minute);
      units; lia.
  - apply Z.div_unique with (r := t + 200 * Millisecond - 15 * Minute);
      units; lia.
Qed.

Lemma New_fields (now0 : Time) :
  New now0 =
  mkWorld (mkPomodoro "" "60" (mkGray 128) "00" (Add now0 (60 * Minute))
             (60 * Minute) (15 * Minute) true None) O ∅ [] O [].
Proof. reflexivity. Qed.

Lemma Start_rest_timer (now0 now : Time) :
  timer (exec (Start false now) (New now0)) =
  mkPomodoro "REST" "15" (mkGray 128) "00" (Add now (15 * Minute))
    (60 * Minute) (15 * Minute) false (Some O).
Proof. rewrite Start_timer, New_fields. reflexivity. Qed.


Lemma Start_rest_runtime (now0 now : Time) :
  tickLoops (exec (Start false now) (New now0))
    = [mkGoroutine O Second AtFirstTick] /\
  cancelled (exec (Start false now) (New now0)) = ∅.
Proof.
  rewrite New_fields. split. reflexivity. reflexivity.
Qed.

Lemma timer_setPc (i : nat) (pc : Pc) (w : World) :
  timer (exec (setPc i pc) w) = timer w.
Proof. reflexivity. Qed.

(** The two ways through [Tick]. *)
Lemma Tick_cases (now : Time) (w : World) :
  exec (Tick now) w =
  let w1 := exec (updP (set_Delimiter (blinked (Delimiter (timer w))))) w in
  if Until now (Deadline (timer w)) <=? 0
  then exec endTimer w1
  else exec (updP (setTimeLeft (Until now (Deadline (timer w))))) w1.
Proof.
  unfold Tick, blinked, bind, getP, exec.
  destruct (10000 <? Gray_RGBA_r (Delimiter (timer w))); cbn;
    match goal with
    | |- context [Until now ?d <=? 0] => destruct (Until now d <=? 0)
    end; reflexivity.
Qed.

(** C5: [New] makes an idle timer in the work phase with a rest interval
    of 15 minutes; the 60 minutes it shows are also its work interval, the
    default.  [Start false] from there shows ["REST"] and ["15"], ["00"],
    and leaves one tick goroutine, not cancelled, whose first tick within
    the 200 milliseconds of the bias still shows 15:00. *)
Theorem New_then_Start_rest (now0 now : Time) :
  let w0 := New now0 in
  let w := exec (Start false now) w0 in
  (TickerCancel (timer w0) = None /\ tickLoops w0 = [] /\
   Description (timer w0) = ""%string /\
   IsWork (timer w0) = true /\
   NextRestInterval (timer w0) = 15 * Minute /\
   NextWorkInterval (timer w0) = 60 * Minute /\
   MinutesText (timer w0) = "60"%string /\
   SecondsText (timer w0) = "00"%string) /\
  (Description (timer w) = "REST"%string /\
   MinutesText (timer w) = "15"%string /\
   SecondsText (timer w) = "00"%string /\
   Deadline (timer w) = Add now (15 * Minute)) /\
  (TickerCancel (timer w) = Some O /\
   tickLoops w = [mkGoroutine O Second AtFirstTick] /\
   uncancelled w (mkGoroutine O Second AtFirstTick) = true) /\
  (forall (ev : Wakeup) (t : Time),
      now <= t <= now + 200 * Millisecond ->
      exists w', stepGoroutine 0 ev t w = Some w' /\
                 Description (timer w') = "REST"%string /\
                 MinutesText (timer w') = "15"%string /\
                 SecondsText (timer w') = "00"%string /\
                 TickerCancel (timer w') = Some O).
Proof.
  cbn zeta.
  destruct (Start_rest_runtime now0 now) as [Hl Hc].
  split; [rewrite New_fields; cbn; auto 10 |].
  rewrite Start_rest_timer, Hl.
  split; [cbn; auto |].
  split.
  { split; [reflexivity |]. split; [reflexivity |].
    unfold uncancelled. apply bool_decide_eq_true. rewrite Hc.
    apply not_elem_of_empty. }
  intros ev t Hrange.
  unfold stepGoroutine. rewrite Hl. cbn [lookup list_lookup gPc].
  eexists. split; [reflexivity |].
  rewrite exec_seq.
  rewrite timer_setPc.
  rewrite Tick_cases. cbn zeta.
  rewrite Start_rest_timer. cbn [Deadline Delimiter]. unfold Add.
  rewrite until_plain by (units; lia).
  destruct (Z.leb_spec (now + 15 * Minute - t) 0) as [Hle | Hgt];
    [units; lia |].
  unfold exec, updP. cbn [snd timer].
  match goal with
  | |- context [setTimeLeft ?d ?p] =>
      destruct (quarter_hour_shown d p) as [HM HS]; [units; lia |]
  end.
  repeat split; assumption.
Qed.

Lemma New_then_Start_rest_witness :
  (0 <= 100 * Millisecond <= 0 + 200 * Millisecond) /\
  exists w',
    stepGoroutine 0 TickerC (100 * Millisecond)
      (exec (Start false 0) (New 0)) = Some w' /\
    Description (timer w') = "REST"%string /\
    MinutesText (timer w') = "15"%string /\
    SecondsText (timer w') = "00"%string /\
    TickerCancel (timer w') = Some O.
Proof.
  assert (H : 0 <= 100 * Millisecond <= 0 + 200 * Millisecond)
    by (units; lia).
  split; [exact H |].
  exact (proj2 (proj2 (proj2 (New_then_Start_rest 0 0)))
           TickerC (100 * Millisecond) H).
Defined.

(** ** The end of a phase *)

Lemma endTimerWith_fields (audio : bool) (w : World) :
  let w' := exec (endTimerWith audio) w in
  timer w' = setIsWork (negb (IsWork (timer w)))
               (set_TickerCancel None (timer w)) /\
  cancelled w' = match TickerCancel (timer w) with
                 | Some c => {[ c ]} ∪ cancelled w
                 | None => cancelled w
                 end /\
  tickLoops w' = tickLoops w /\
  nextCtx w' = nextCtx w /\
  alarms w' = (if audio then S (alarms w) else alarms w) /\
  logged w' = logged w.
Proof.
  run_unfold. destruct w as [[d m c s dl nw nr iw [h |]] n cs ls a lg];
    destruct audio, iw; cbn; auto 10.
Qed.

(** A goroutine blocked in its [select] whose context is cancelled can
    return, and returning does not touch the timer. *)
Lemma cancelled_loop_returns (i : nat) (g : Goroutine) (t : Time) (w : World) :
  tickLoops w !! i = Some g -> gPc g = AtSelect -> gCtx g ∈ cancelled w ->
  exists w', stepGoroutine i CtxDone t w = Some w' /\
             timer w' = timer w /\
             tickLoops w' !! i = Some (mkGoroutine (gCtx g) (gPeriod g) Returned).
Proof.
  intros Hi Hpc Hin. unfold stepGoroutine. rewrite Hi, Hpc.
  rewrite decide_True by exact Hin.
  eexists. split; [reflexivity |]. split; [reflexivity |].
  cbn. rewrite list_lookup_alter_eq, Hi. reflexivity.
Qed.

(** C1, as amended: a tick that finds [now >= deadline] while a countdown
    runs ends the phase once: [IsWork] is toggled, the label and the time
    shown become those of the other phase and its whole interval (the
    expired remaining time is not shown), the context of the countdown is
    cancelled and the handle cleared, so the loop that ticked returns at
    its [select]; no new loop is launched and the deadline keeps its
    value. *)
Theorem Tick_at_deadline (now : Time) (w : World) (c : CtxId) :
  Deadline (timer w) <= now ->
  TickerCancel (timer w) = Some c ->
  let p := timer w in
  let w' := exec (Tick now) w in
  let p' := timer w' in
  let other := if IsWork p then NextRestInterval p else NextWorkInterval p in
  IsWork p' = negb (IsWork p) /\
  Deadline p' = Deadline p /\
  Description p' = (if IsWork p then "REST" else "FOCUS")%string /\
  MinutesText p' = Sprintf_2d (minutesOf (biased other)) /\
  SecondsText p' = Sprintf_02d (secondsOf (biased other)) /\
  NextWorkInterval p' = NextWorkInterval p /\
  NextRestInterval p' = NextRestInterval p /\
  TickerCancel p' = None /\
  cancelled w' = {[ c ]} ∪ cancelled w /\
  tickLoops w' = tickLoops w /\
  nextCtx w' = nextCtx w /\
  (forall i g t,
      tickLoops w' !! i = Some g -> gCtx g = c -> gPc g = AtSelect ->
      exists w'', stepGoroutine i CtxDone t w' = Some w'' /\
                  timer w'' = timer w' /\
                  tickLoops w'' !! i
                    = Some (mkGoroutine (gCtx g) (gPeriod g) Returned)).
Proof.
  intros Hdue Hrun. cbn zeta.
  rewrite Tick_cases. cbn zeta.
  apply until_sign in Hdue. apply Z.leb_le in Hdue. rewrite Hdue.
  set (w1 := exec (updP (set_Delimiter (blinked (Delimiter (timer w))))) w).
  destruct (endTimerWith_fields audioEnabled w1) as (Hp & Hc & Hl & Hn & _).
  fold endTimer in Hp, Hc, Hl, Hn.
  change (TickerCancel (timer w1)) with (TickerCancel (timer w)) in Hc.
  rewrite Hrun in Hc.
  rewrite setIsWork_fields in Hp.
  change (IsWork (timer w1)) with (IsWork (timer w)) in Hp.
  rewrite Hp.
  split; [reflexivity |].
  split; [reflexivity |].
  split; [destruct (IsWork (timer w)); reflexivity |].
  split; [destruct (IsWork (timer w)); reflexivity |].
  split; [destruct (IsWork (timer w)); reflexivity |].
  split; [reflexivity |].
  split; [reflexivity |].
  split; [reflexivity |].
  split; [exact Hc |].
  split; [exact Hl |].
  split; [exact Hn |].
  intros i g t Hi Hg Hpc.
  destruct (cancelled_loop_returns i g t (exec endTimer w1) Hi Hpc)
    as (w'' & Hstep & Ht & Hi').
  - rewrite Hc, Hg. apply elem_of_union. left.
    apply elem_of_singleton. reflexivity.
  - exists w''. rewrite <- Hp. auto.
Qed.

Lemma Tick_at_deadline_witness :
  (Deadline (timer (exec (Start true 0) (New 0))) <= 60 * Minute) /\
  TickerCancel (timer (exec (Start true 0) (New 0))) = Some O /\
  IsWork (timer (exec (Tick (60 * Minute)) (exec (Start true 0) (New 0))))
    = negb (IsWork (timer (exec (Start true 0) (New 0)))).
Proof.
  assert (H1 : Deadline (timer (exec (Start true 0) (New 0))) <= 60 * Minute)
    by (vm_compute; discriminate).
  assert (H2 : TickerCancel (timer (exec (Start true 0) (New 0))) = Some O)
    by reflexivity.
  split; [exact H1 |]. split; [exact H2 |].
  exact (proj1 (Tick_at_deadline (60 * Minute) (exec (Start true 0) (New 0)) O
                  H1 H2)).
Defined.

(** C1, as first stated, fails: sixty minutes after [Start true] on the
    new timer, the tick that ends the work phase leaves the deadline where
    it was, not at [now] plus the rest interval. *)
Lemma deadline_kept_at_phase_end :
  let w := exec (Start true 0) (New 0) in
  let now := 60 * Minute in
  Deadline (timer w) <= now /\
  TickerCancel (timer w) = Some O /\
  IsWork (timer (exec (Tick now) w)) = false /\
  Deadline (timer (exec (Tick now) w)) = 60 * Minute /\
  Add now (NextRestInterval (timer w)) = 75 * Minute /\
  Deadline (timer (exec (Tick now) w)) <> Add now (NextRestInterval (timer w)).
Proof.
  cbn zeta. split; [vm_compute; discriminate |].
  split; [reflexivity |]. split; [vm_compute; reflexivity |].
  split; [vm_compute; reflexivity |]. split; [vm_compute; reflexivity |].
  vm_compute. discriminate.
Qed.

(** ** Stop *)

Lemma StopTimer_fields (w : World) :
  let w' := exec StopTimer w in
  timer w' = set_Delimiter (mkGray 128)
               (set_TickerCancel None (set_Description "" (timer w))) /\
  cancelled w' = match TickerCancel (timer w) with
                 | Some c => {[ c ]} ∪ cancelled w
                 | None => cancelled w
                 end /\
  tickLoops w' = tickLoops w /\
  nextCtx w' = nextCtx w.
Proof.
  run_unfold. cbn. destruct (TickerCancel (timer w)); cbn; auto.
Qed.

(** C6, as amended: from any world [StopTimer] leaves an empty label and
    the idle delimiter colour, calls the cancel function of the running
    countdown, if any, and clears the handle; it keeps both intervals, the
    deadline and the time shown.  Afterwards the context of every tick
    goroutine is cancelled, so that each one blocked in its [select] can
    return, and returns without touching the timer.  (A goroutine that has
    not yet made its first tick still makes it.) *)
Theorem StopTimer_effects (w : World) :
  let p := timer w in
  let w' := exec StopTimer w in
  let p' := timer w' in
  Description p' = ""%string /\
  Delimiter p' = mkGray 128 /\
  TickerCancel p' = None /\
  cancelled w' = match TickerCancel p with
                 | Some c => {[ c ]} ∪ cancelled w
                 | None => cancelled w
                 end /\
  NextWorkInterval p' = NextWorkInterval p /\
  NextRestInterval p' = NextRestInterval p /\
  IsWork p' = IsWork p /\
  Deadline p' = Deadline p /\
  MinutesText p' = MinutesText p /\
  SecondsText p' = SecondsText p /\
  tickLoops w' = tickLoops w /\
  (Inv w ->
   forall i g, tickLoops w' !! i = Some g ->
     uncancelled w' g = false /\
     (gPc g = AtSelect ->
      forall t, exists w'', stepGoroutine i CtxDone t w' = Some w'' /\
                            timer w'' = timer w' /\
                            tickLoops w'' !! i
                              = Some (mkGoroutine (gCtx g) (gPeriod g) Returned))).
Proof.
  cbn zeta.
  destruct (StopTimer_fields w) as (Hp & Hc & Hl & Hn).
  assert (Hnone : TickerCancel (timer (exec StopTimer w)) = None)
    by (rewrite Hp; reflexivity).
  rewrite Hp. cbn.
  repeat (split; [reflexivity |]).
  split; [exact Hc |].
  repeat (split; [reflexivity |]).
  split; [exact Hl |].
  intros HI i g Hi.
  assert (Hin : gCtx g ∈ cancelled (exec StopTimer w)).
  { apply Inv_StopTimer in HI.
    destruct (decide (gCtx g ∈ cancelled (exec StopTimer w))) as [Hin | Hnot];
      [exact Hin | exfalso].
    assert (Hg : g ∈ tickLoops (exec StopTimer w))
      by (apply list_elem_of_lookup; eauto).
    pose proof (inv_other_loops _ HI g Hg Hnot) as Hh.
    congruence. }
  split.
  - unfold uncancelled. apply bool_decide_eq_false. auto.
  - intros Hpc t.
    destruct (cancelled_loop_returns i g t (exec StopTimer w) Hi Hpc Hin)
      as (w'' & Hstep & Ht & Hi').
    exists w''. rewrite <- Hp. auto.
Qed.

Lemma StopTimer_effects_witness :
  Inv (exec (Start true 0) (New 0)) /\
  uncancelled (exec StopTimer (exec (Start true 0) (New 0)))
    (mkGoroutine O Second AtFirstTick) = false.
Proof.
  assert (HI : Inv (exec (Start true 0) (New 0)))
    by apply Inv_Start, Inv_New.
  split; [exact HI |].
  pose proof
    (proj2 (proj2 (proj2 (proj2 (proj2 (proj2 (proj2 (proj2 (proj2 (proj2
       (proj2 (StopTimer_effects (exec (Start true 0) (New 0)))))))))))))) as H.
  cbn zeta in H.
  exact (proj1 (H HI O (mkGoroutine O Second AtFirstTick) eq_refl)).
Defined.

(** C6, as first stated, fails: when [StopTimer] comes before the first
    tick of the goroutine that [Start] launched, that tick still runs, dims
    the delimiter and rewrites the time shown. *)
Lemma tick_after_StopTimer :
  let w := exec (Start true 0 ;; StopTimer) (New 0) in
  let shown (w : World) :=
    (Delimiter (timer w), MinutesText (timer w), SecondsText (timer w)) in
  shown w = (mkGray 128, "60"%string, "00"%string) /\
  option_map shown (stepGoroutine 0 TickerC (5 * Second) w)
    = Some (mkGray 22, "59"%string, "55"%string).
Proof. split; vm_compute; reflexivity. Qed.

(** ** The alarm *)

Lemma playAlarm_cases (lib : AudioLib) :
  playAlarm lib =
  match NewReader_err lib, Read_err lib, NewContext_err lib, Close_err lib with
  | Some e, _, _, _ =>
      Some (Errorf_w "unable to initialize a decoder of the ogg vorbis audio: " e)
  | None, Some e, n, c =>
      if errors_Is_EOF e
      then match n, c with
           | Some e', _ => Some (Errorf_w "unable to initialize an oto context: " e')
           | None, Some e' => Some (Errorf_w "unable to close the player: " e')
           | None, None => None
           end
      else Some (Errorf_w "unable to decode the ogg vorbis file: " e)
  | None, None, Some e, _ =>
      Some (Errorf_w "unable to initialize an oto context: " e)
  | None, None, None, Some e =>
      Some (Errorf_w "unable to close the player: " e)
  | None, None, None, None => None
  end.
Proof.
  unfold playAlarm.
  destruct (NewReader_err lib) as [e1 |], (Read_err lib) as [e2 |],
    (NewContext_err lib) as [e3 |], (Close_err lib) as [e4 |];
    try destruct (errors_Is_EOF e2); reflexivity.
Qed.

(** C8: [playAlarm] returns an error in exactly three kinds of case: the
    decoder cannot be initialised; decoding fails with an error that is
    not [io.EOF]; the output device cannot be opened or the player cannot
    be closed.  The error returned wraps the library's error behind a
    context.  The goroutine that plays the alarm writes such an error to
    the log and drops it: it runs once, and neither it nor the launch in
    [endTimer] changes the timer, the contexts or the tick loops.  With
    [audioEnabled] as it is, [endTimer] launches none. *)
Theorem playAlarm_failures (lib : AudioLib) (audio : bool) (w : World) :
  (playAlarm lib <> None <->
     NewReader_err lib <> None \/
     (exists e, Read_err lib = Some e /\ errors_Is_EOF e = false) \/
     (NewContext_err lib <> None \/ Close_err lib <> None)) /\
  (forall err, playAlarm lib = Some err ->
     exists context inner,
       err = Errorf_w context inner /\
       ((context = "unable to initialize a decoder of the ogg vorbis audio: "%string
         /\ NewReader_err lib = Some inner) \/
        (context = "unable to decode the ogg vorbis file: "%string
         /\ Read_err lib = Some inner /\ errors_Is_EOF inner = false) \/
        (context = "unable to initialize an oto context: "%string
         /\ NewContext_err lib = Some inner) \/
        (context = "unable to close the player: "%string
         /\ Close_err lib = Some inner))) /\
  (let w' := exec (alarmBody lib) w in
   timer w' = timer w /\ cancelled w' = cancelled w /\
   tickLoops w' = tickLoops w /\ nextCtx w' = nextCtx w /\
   alarms w' = alarms w /\
   logged w' = logged w ++
     match playAlarm lib with
     | Some err =>
         [String.append "unable to play the alarm sound: " (errorText err)]
     | None => []
     end) /\
  (forall w', stepAlarm lib w = Some w' ->
     S (alarms w') = alarms w /\ timer w' = timer w) /\
  (let w' := exec (endTimerWith audio) w in
   timer w' = timer (exec (endTimerWith false) w) /\
   cancelled w' = cancelled (exec (endTimerWith false) w) /\
   tickLoops w' = tickLoops w /\
   alarms w' = (if audio then S (alarms w) else alarms w) /\
   logged w' = logged w) /\
  alarms (exec endTimer w) = alarms w.
Proof.
  split; [| split; [| split; [| split; [| split]]]].
  - rewrite playAlarm_cases.
    destruct (NewReader_err lib) as [e1 |], (Read_err lib) as [e2 |],
      (NewContext_err lib) as [e3 |], (Close_err lib) as [e4 |];
      try destruct (errors_Is_EOF e2) eqn:E2;
      (split;
       [ intros H; first [ left; discriminate
                         | right; left; exists e2; split; [reflexivity | exact E2]
                         | right; right; left; discriminate
                         | right; right; right; discriminate
                         | exfalso; apply H; reflexivity ]
       | intros [H | [[e [He HE]] | [H | H]]];
         first [ discriminate
               | exfalso; apply H; reflexivity
               | injection He as <-; congruence ] ]).
  - intros err. rewrite playAlarm_cases.
    destruct (NewReader_err lib) as [e1 |], (Read_err lib) as [e2 |],
      (NewContext_err lib) as [e3 |], (Close_err lib) as [e4 |];
      try destruct (errors_Is_EOF e2) eqn:E2;
      intros H; try discriminate; injection H as <-;
      do 2 eexists; (split; [reflexivity |]); auto 7.
  - cbn zeta. unfold alarmBody.
    destruct (playAlarm lib); run_unfold; cbn;
      rewrite ?app_nil_r; auto 7.
  - intros w'. unfold stepAlarm.
    destruct (alarms w) as [| n]; [discriminate |].
    intros H. injection H as <-. unfold alarmBody.
    destruct (playAlarm lib); split; reflexivity.
  - cbn zeta.
    destruct (endTimerWith_fields audio w) as (Hp & Hc & Hl & Hn & Ha & Hg).
    destruct (endTimerWith_fields false w) as (Hp' & Hc' & _).
    rewrite Hp, Hp', Hc, Hc'. auto.
  - apply (endTimerWith_fields audioEnabled w).
Qed.

Lemma playAlarm_failures_witness :
  let lib := mkAudioLib None 671558 (Some (libError "corrupt page")) None 3 None in
  stepAlarm lib (exec (endTimerWith true) (New 0))
    = Some (exec (alarmBody lib) (exec (endTimerWith false) (New 0))) /\
  S (alarms (exec (alarmBody lib) (exec (endTimerWith false) (New 0))))
    = alarms (exec (endTimerWith true) (New 0)) /\
  timer (exec (alarmBody lib) (exec (endTimerWith false) (New 0)))
    = timer (exec (endTimerWith true) (New 0)).
Proof.
  cbn zeta.
  assert (H : stepAlarm
                (mkAudioLib None 671558 (Some (libError "corrupt page")) None 3 None)
                (exec (endTimerWith true) (New 0))
              = Some (exec (alarmBody
                        (mkAudioLib None 671558 (Some (libError "corrupt page"))
                           None 3 None))
                        (exec (endTimerWith false) (New 0))))
    by (vm_compute; reflexivity).
  split; [exact H |].
  exact (proj1 (proj2 (proj2 (proj2
           (playAlarm_failures
              (mkAudioLib None 671558 (Some (libError "corrupt page")) None 3 None)
              true (exec (endTimerWith true) (New 0)))))) _ H).
Defined.

(** ** One countdown at a time *)

Lemma filter_none {A} (f : A -> bool) (l : list A) :
  (forall x, In x l -> f x = false) -> List.filter f l = [].
Proof.
  induction l as [| a l IH]; intros H; cbn; [reflexivity |].
  rewrite (H a) by (left; reflexivity).
  apply IH. intros x Hx. apply H. right. exact Hx.
Qed.

Lemma handle_iff_uncancelled_loop (w : World) (c : CtxId) :
  Inv w ->
  (TickerCancel (timer w) = Some c <->
   exists g, g ∈ tickLoops w /\ gCtx g = c /\
             uncancelled w g = true /\ alive g = true).
Proof.
  intros [I1 I2 I3 I4 I5 I6]. split.
  - intros E. destruct (I4 c E) as [Hnot [g [Hg Hc]]].
    exists g. split; [exact Hg |]. split; [exact Hc |]. split.
    + unfold uncancelled. apply bool_decide_eq_true. rewrite Hc. exact Hnot.
    + unfold alive. destruct (gPc g) eqn:Hpc; try reflexivity.
      exfalso. apply Hnot. rewrite <- Hc. apply (I6 g Hg Hpc).
  - intros (g & Hg & Hc & Hun & _). subst c.
    unfold uncancelled in Hun. apply bool_decide_eq_true in Hun.
    apply (I5 g Hg Hun).
Qed.

Lemma one_uncancelled_loop (w : World) (i j : nat) (g h : Goroutine) :
  Inv w ->
  tickLoops w !! i = Some g -> tickLoops w !! j = Some h ->
  uncancelled w g = true -> uncancelled w h = true -> i = j.
Proof.
  intros [I1 I2 I3 I4 I5 I6] Hi Hj Hg Hh.
  unfold uncancelled in *.
  apply bool_decide_eq_true in Hg. apply bool_decide_eq_true in Hh.
  assert (Eg : TickerCancel (timer w) = Some (gCtx g)).
  { apply I5; [apply list_elem_of_lookup; eauto | exact Hg]. }
  assert (Eh : TickerCancel (timer w) = Some (gCtx h)).
  { apply I5; [apply list_elem_of_lookup; eauto | exact Hh]. }
  assert (Ectx : gCtx g = gCtx h) by congruence.
  apply (NoDup_lookup (gCtx <$> tickLoops w) i j (gCtx g)); [exact I3 | |].
  - rewrite list_lookup_fmap, Hi. reflexivity.
  - rewrite list_lookup_fmap, Hj, Ectx. reflexivity.
Qed.

Lemma Start_leaves_one_uncancelled (isWork : bool) (now : Time) (w : World) :
  Inv w ->
  List.filter (uncancelled (exec (Start isWork now) w))
    (tickLoops (exec (Start isWork now) w))
  = [mkGoroutine (nextCtx w) Second AtFirstTick].
Proof.
  intros HI.
  pose proof (Inv_Start isWork now w HI) as HI'.
  destruct (Start_runtime isWork now w) as (Hn & Hl & Ht & Hc).
  rewrite Hl, List.filter_app.
  rewrite filter_none.
  - cbn [List.filter app].
    replace (uncancelled (exec (Start isWork now) w)
               (mkGoroutine (nextCtx w) Second AtFirstTick)) with true;
      [reflexivity |].
    symmetry. unfold uncancelled. apply bool_decide_eq_true.
    apply (inv_handle_loop _ HI' (nextCtx w) Ht).
  - intros g Hg. apply list_elem_of_In in Hg.
    unfold uncancelled. apply bool_decide_eq_false. intros Hnot. apply Hnot.
    destruct (decide (gCtx g ∈ cancelled (exec (Start isWork now) w)))
      as [Hin | Hout]; [exact Hin | exfalso].
    assert (Hg' : g ∈ tickLoops (exec (Start isWork now) w)).
    { rewrite Hl. apply elem_of_app. left. exact Hg. }
    pose proof (inv_other_loops _ HI' g Hg' Hout) as Hh.
    rewrite Ht in Hh. injection Hh as Hh.
    pose proof (inv_loops_made _ HI g Hg). lia.
Qed.

(** C9, as amended: in every world the program reaches, the cancel handle
    is set exactly when some tick goroutine has a context that is not
    cancelled; that goroutine has not returned, its context is the one of
    the handle, and no other goroutine is in that case.  [Start] calls the
    handle it finds before it installs the one of a fresh context, and
    two calls of [Start] in a row leave exactly one goroutine whose context
    is not cancelled, the one launched last.  (A goroutine whose context is
    cancelled is alive until it returns from its [select], and makes its
    first tick whatever happened to its context.) *)
Theorem one_countdown_at_a_time
    (now0 : Time) (acts : list Action) (w : World) :
  performAll acts (New now0) = Some w ->
  (forall c, TickerCancel (timer w) = Some c <->
     exists g, g ∈ tickLoops w /\ gCtx g = c /\
               uncancelled w g = true /\ alive g = true) /\
  (forall i j g h,
     tickLoops w !! i = Some g -> tickLoops w !! j = Some h ->
     uncancelled w g = true -> uncancelled w h = true -> i = j) /\
  (forall isWork now,
     let w' := exec (Start isWork now) w in
     cancelled w' = match TickerCancel (timer w) with
                    | Some c => {[ c ]} ∪ cancelled w
                    | None => cancelled w
                    end /\
     TickerCancel (timer w') = Some (nextCtx w) /\
     TickerCancel (timer w) <> Some (nextCtx w) /\
     List.filter (uncancelled w') (tickLoops w')
       = [mkGoroutine (nextCtx w) Second AtFirstTick]) /\
  (forall a b t1 t2,
     let w2 := exec (Start a t1 ;; Start b t2) w in
     tickLoops w2 = tickLoops w ++ [mkGoroutine (nextCtx w) Second AtFirstTick;
                                    mkGoroutine (S (nextCtx w)) Second AtFirstTick] /\
     List.filter (uncancelled w2) (tickLoops w2)
       = [mkGoroutine (S (nextCtx w)) Second AtFirstTick] /\
     TickerCancel (timer w2) = Some (S (nextCtx w))).
Proof.
  intros Hreach.
  assert (HI : Inv w) by (eapply Inv_performAll; [exact Hreach | apply Inv_New]).
  split; [intros c; apply handle_iff_uncancelled_loop, HI |].
  split; [intros i j g h; apply one_uncancelled_loop, HI |].
  split.
  - intros isWork now. cbn zeta.
    destruct (Start_runtime isWork now w) as (Hn & Hl & Ht & Hc).
    split; [exact Hc |]. split; [exact Ht |]. split.
    + intros E. destruct (inv_handle_loop _ HI _ E) as [_ [g [Hg Hgc]]].
      pose proof (inv_loops_made _ HI g Hg). lia.
    + apply Start_leaves_one_uncancelled, HI.
  - intros a b t1 t2. cbn zeta. rewrite exec_seq.
    pose proof (Inv_Start a t1 w HI) as HI1.
    destruct (Start_runtime a t1 w) as (Hn1 & Hl1 & _).
    destruct (Start_runtime b t2 (exec (Start a t1) w)) as (Hn2 & Hl2 & Ht2 & _).
    rewrite Hn1 in *. split; [| split].
    + rewrite Hl2, Hl1, <- app_assoc. reflexivity.
    + rewrite <- Hn1. apply Start_leaves_one_uncancelled, HI1.
    + exact Ht2.
Qed.

Lemma one_countdown_at_a_time_witness :
  performAll [CallStart true 0] (New 0) = Some (exec (Start true 0) (New 0)) /\
  TickerCancel
    (timer (exec (Start true 1 ;; Start false 2) (exec (Start true 0) (New 0))))
    = Some (S (nextCtx (exec (Start true 0) (New 0)))).
Proof.
  assert (H : performAll [CallStart true 0] (New 0)
              = Some (exec (Start true 0) (New 0))) by reflexivity.
  split; [exact H |].
  exact (proj2 (proj2 (proj2 (proj2 (proj2
           (one_countdown_at_a_time 0 [CallStart true 0] _ H)))
           true false 1 2))).
Defined.

(** C9, as first stated, fails: after two calls of [Start] in a row the
    goroutine of the first call has not returned, so two are alive, and
    its first tick, made after its context was cancelled, still writes the
    delimiter and the time shown. *)
Lemma cancelled_loop_still_ticks :
  let w := exec (Start true 0 ;; Start true 0) (New 0) in
  let shown (w : World) :=
    (Delimiter (timer w), MinutesText (timer w), SecondsText (timer w)) in
  List.filter alive (tickLoops w)
    = [mkGoroutine 0%nat Second AtFirstTick;
       mkGoroutine 1%nat Second AtFirstTick] /\
  uncancelled w (mkGoroutine 0%nat Second AtFirstTick) = false /\
  shown w = (mkGray 128, "60"%string, "00"%string) /\
  option_map shown (stepGoroutine 0 TickerC (2 * Second) w)
    = Some (mkGray 22, "59"%string, "58"%string).
Proof. repeat split; vm_compute; reflexivity. Qed.

(** ** The ticking loop *)

Lemma Tick_running_world (now : Time) (w : World) :
  now < Deadline (timer w) ->
  exec (Tick now) w =
  mkWorld (setTimeLeft (Until now (Deadline (timer w)))
             (set_Delimiter (blinked (Delimiter (timer w))) (timer w)))
    (nextCtx w) (cancelled w) (tickLoops w) (alarms w) (logged w).
Proof.
  intros H. rewrite Tick_cases. cbn zeta.
  destruct (Z.leb_spec (Until now (Deadline (timer w))) 0) as [Hle | Hgt];
    [| reflexivity].
  apply (proj1 (until_sign now (Deadline (timer w)))) in Hle. lia.
Qed.

Lemma Tick_running_same (now : Time) (w : World) :
  now < Deadline (timer w) -> sameCountdown w (exec (Tick now) w).
Proof.
  intros H. rewrite Tick_running_world by exact H.
  repeat split.
Qed.

Lemma sameCountdown_trans (w1 w2 w3 : World) :
  sameCountdown w1 w2 -> sameCountdown w2 w3 -> sameCountdown w1 w3.
Proof.
  unfold sameCountdown.
  intros (A1 & A2 & A3 & A4 & A5 & A6 & A7 & A8 & A9)
         (B1 & B2 & B3 & B4 & B5 & B6 & B7 & B8 & B9).
  repeat split; congruence.
Qed.

(** The time shown by a tick made at [t] before the deadline. *)
Lemma Tick_running_shown (t : Time) (w : World) :
  t < Deadline (timer w) ->
  MinutesText (timer (exec (Tick t) w))
    = Sprintf_2d (minutesOf (biased (Until t (Deadline (timer w))))) /\
  SecondsText (timer (exec (Tick t) w))
    = Sprintf_02d (secondsOf (biased (Until t (Deadline (timer w))))).
Proof.
  intros H. rewrite Tick_running_world by exact H. split; reflexivity.
Qed.

(** A loop blocked in its [select] takes tick after tick for as long as
    the deadline is ahead, and stays in its [select]. *)
Lemma takeTicks_before_deadline
    (i : nat) (made : Time) (lag : nat -> Duration) (c : CtxId) (per : Duration) :
  forall (n k : nat) (w : World),
    tickLoops w !! i = Some (mkGoroutine c per AtSelect) ->
    (forall j, (k <= j < k + n)%nat ->
               Add (tickerTime made per j) (lag j) < Deadline (timer w)) ->
    exists w',
      takeTicks i made lag k n w = Some w' /\
      sameCountdown w w' /\
      (n <> O ->
       let t := Add (tickerTime made per (k + n - 1)%nat) (lag (k + n - 1)%nat) in
       MinutesText (timer w')
         = Sprintf_2d (minutesOf (biased (Until t (Deadline (timer w))))) /\
       SecondsText (timer w')
         = Sprintf_02d (secondsOf (biased (Until t (Deadline (timer w)))))).
Proof.
  induction n as [| n IH]; intros k w Hi Hbefore.
  - exists w. split; [reflexivity |]. split; [repeat split | congruence].
  - cbn [takeTicks]. rewrite Hi. cbn [gPc gPeriod].
    assert (Hk : Add (tickerTime made per k) (lag k) < Deadline (timer w))
      by (apply Hbefore; lia).
    unfold stepGoroutine at 1. rewrite Hi. cbn [gPc].
    pose proof (Tick_running_same _ w Hk) as Hsame.
    pose proof (Tick_running_shown _ w Hk) as Hshown.
    set (w1 := exec (Tick (Add (tickerTime made per k) (lag k))) w) in *.
    destruct Hsame as (A1 & A2 & A3 & A4 & A5 & A6 & A7 & A8 & A9).
    destruct (IH (S k) w1) as (w' & Hrun & Hsame' & Hshown').
    + rewrite A8. exact Hi.
    + intros j Hj. rewrite A3. apply Hbefore. lia.
    + exists w'. split; [exact Hrun |]. split.
      * apply (sameCountdown_trans w w1 w'); [repeat split; assumption | exact Hsame'].
      * intros _. cbn zeta. destruct n as [| n'].
        -- cbn [takeTicks] in Hrun. injection Hrun as <-.
           replace (k + 1 - 1)%nat with k by lia. exact Hshown.
        -- replace (k + S (S n') - 1)%nat with (S k + S n' - 1)%nat by lia.
           rewrite <- A3. apply Hshown'. discriminate.
Qed.

(** The loop that [Start] launched: while the deadline is ahead it makes
    its first tick and then one tick for every tick of its one second
    ticker, and each shows the time left when it is made. *)
Lemma runLoop_after_Start
    (isWork : bool) (now made : Time) (lag : nat -> Duration) (n : nat)
    (w : World) :
  let w' := exec (Start isWork now) w in
  let i := length (tickLoops w) in
  let t := Add (tickerTime made Second n) (lag n) in
  (forall j, (j <= n)%nat ->
             Add (tickerTime made Second j) (lag j) < Deadline (timer w')) ->
  exists w_n,
    runLoop i made lag n w' = Some w_n /\
    Description (timer w_n) = Description (timer w') /\
    IsWork (timer w_n) = IsWork (timer w') /\
    Deadline (timer w_n) = Deadline (timer w') /\
    TickerCancel (timer w_n) = TickerCancel (timer w') /\
    cancelled w_n = cancelled w' /\
    nextCtx w_n = nextCtx w' /\
    tickLoops w_n !! i = Some (mkGoroutine (nextCtx w) Second AtSelect) /\
    MinutesText (timer w_n)
      = Sprintf_2d (minutesOf (biased (Until t (Deadline (timer w'))))) /\
    SecondsText (timer w_n)
      = Sprintf_02d (secondsOf (biased (Until t (Deadline (timer w'))))).
Proof.
  cbn zeta. intros Hbefore.
  destruct (Start_runtime isWork now w) as (Hn & Hl & Ht & Hc).
  set (w' := exec (Start isWork now) w) in *.
  set (i := length (tickLoops w)).
  assert (Hi : tickLoops w' !! i = Some (mkGoroutine (nextCtx w) Second AtFirstTick)).
  { rewrite Hl. apply list_lookup_middle. reflexivity. }
  assert (H0 : Add made (lag O) < Deadline (timer w')).
  { specialize (Hbefore O ltac:(lia)). unfold tickerTime, Add in *.
    change (Z.of_nat 0) with 0 in Hbefore. lia. }
  unfold runLoop. rewrite Hi. cbn [gPc].
  unfold stepGoroutine at 1. rewrite Hi. cbn [gPc]. rewrite exec_seq.
  pose proof (Tick_running_same _ w' H0) as Hsame.
  pose proof (Tick_running_shown _ w' H0) as Hshown.
  set (w0 := exec (Tick (Add made (lag O))) w') in *.
  destruct Hsame as (A1 & A2 & A3 & A4 & A5 & A6 & A7 & A8 & A9).
  assert (Hi1 : tickLoops (exec (setPc i AtSelect) w0) !! i
                = Some (mkGoroutine (nextCtx w) Second AtSelect)).
  { cbn. rewrite list_lookup_alter_eq, A8, Hi. reflexivity. }
  destruct (takeTicks_before_deadline i made lag (nextCtx w) Second n 1
              (exec (setPc i AtSelect) w0) Hi1)
    as (w_n & Hrun & Hsame' & Hshown').
  { intros j Hj. rewrite timer_setPc, A3. apply Hbefore. lia. }
  exists w_n. split; [exact Hrun |].
  destruct Hsame' as (B1 & B2 & B3 & B4 & B5 & B6 & B7 & B8 & B9).
  rewrite timer_setPc in B1, B2, B3, B4, B5, B6.
  change (cancelled (exec (setPc i AtSelect) w0)) with (cancelled w0) in B7.
  change (nextCtx (exec (setPc i AtSelect) w0)) with (nextCtx w0) in B9.
  split; [congruence |]. split; [congruence |]. split; [congruence |].
  split; [congruence |]. split; [congruence |]. split; [congruence |].
  split; [rewrite B8; exact Hi1 |].
  destruct n as [| n'].
    + cbn [takeTicks] in Hrun. injection Hrun as <-.
      rewrite timer_setPc. unfold tickerTime, Add.
      change (Z.of_nat 0) with 0. rewrite Z.mul_0_l, Z.add_0_r.
      exact Hshown.
    + specialize (Hshown' ltac:(discriminate)). cbn zeta in Hshown'.
      rewrite timer_setPc, A3 in Hshown'.
      replace (1 + S n' - 1)%nat with (S n') in Hshown' by lia.
      exact Hshown'.
Qed.



(** * More of the timer *)

(** ** Ticks *)

Lemma Tick_delimiter (now : Time) (w : World) :
  Delimiter (timer (exec (Tick now) w)) = blinked (Delimiter (timer w)).
Proof.
  rewrite Tick_cases. cbn zeta.
  destruct (Until now (Deadline (timer w)) <=? 0); [| reflexivity].
  match goal with
  | |- context [exec endTimer ?w1] =>
      destruct (endTimerWith_fields audioEnabled w1) as (Hp & _);
      fold endTimer in Hp; rewrite Hp, setIsWork_fields
  end.
  reflexivity.
Qed.

Lemma Tick_expired_timer (now : Time) (w : World) :
  Deadline (timer w) <= now ->
  timer (exec (Tick now) w) =
  setIsWork (negb (IsWork (timer w)))
    (set_TickerCancel None
       (set_Delimiter (blinked (Delimiter (timer w))) (timer w))).
Proof.
  intros H. rewrite Tick_cases. cbn zeta.
  apply until_sign in H. apply Z.leb_le in H. rewrite H.
  match goal with
  | |- context [exec endTimer ?w1] =>
      destruct (endTimerWith_fields audioEnabled w1) as (Hp & _);
      fold endTimer in Hp; rewrite Hp
  end.
  reflexivity.
Qed.

(** What every tick leaves alone, and what a tick of an idle timer
    leaves alone. *)
Lemma Tick_runtime (now : Time) (w : World) :
  nextCtx (exec (Tick now) w) = nextCtx w /\
  tickLoops (exec (Tick now) w) = tickLoops w /\
  alarms (exec (Tick now) w) = alarms w /\
  logged (exec (Tick now) w) = logged w /\
  (TickerCancel (timer w) = None ->
   TickerCancel (timer (exec (Tick now) w)) = None /\
   cancelled (exec (Tick now) w) = cancelled w).
Proof.
  rewrite Tick_cases. cbn zeta.
  destruct (Until now (Deadline (timer w)) <=? 0).
  - match goal with
    | |- context [exec endTimer ?w1] =>
        destruct (endTimerWith_fields audioEnabled w1)
          as (Hp & Hc & Hl & Hn & Ha & Hg);
        fold endTimer in Hp, Hc, Hl, Hn, Ha, Hg;
        rewrite Hp, Hc, Hl, Hn, Ha, Hg
    end.
    rewrite setIsWork_fields. cbn.
    split; [reflexivity |]. split; [reflexivity |].
    split; [reflexivity |]. split; [reflexivity |].
    intros E. rewrite E. split; reflexivity.
  - cbn.
    split; [reflexivity |]. split; [reflexivity |].
    split; [reflexivity |]. split; [reflexivity |].
    intros E. split; [exact E | reflexivity].
Qed.

(** X1: a tick before the deadline shows the whole minutes and seconds of
    the time left plus 200ms, blinks the delimiter, and changes nothing
    else: label, phase, deadline, intervals, handle, contexts and
    goroutines stay as they were. *)
Theorem Tick_before_deadline (now : Time) (w : World) :
  now < Deadline (timer w) ->
  Deadline (timer w) - now <= maxDuration - 200 * Millisecond ->
  let p := timer w in
  let w' := exec (Tick now) w in
  let p' := timer w' in
  let left := Deadline p - now in
  MinutesText p' = Sprintf_2d ((left + 200 * Millisecond) / Minute) /\
  SecondsText p' = Sprintf_02d (((left + 200 * Millisecond) mod Minute) / Second) /\
  Delimiter p' = blinked (Delimiter p) /\
  Description p' = Description p /\
  IsWork p' = IsWork p /\
  Deadline p' = Deadline p /\
  NextWorkInterval p' = NextWorkInterval p /\
  NextRestInterval p' = NextRestInterval p /\
  TickerCancel p' = TickerCancel p /\
  cancelled w' = cancelled w /\
  tickLoops w' = tickLoops w /\
  nextCtx w' = nextCtx w.
Proof.
  intros Hlt Hmax. cbn zeta.
  rewrite Tick_running_world by exact Hlt.
  cbn [timer cancelled tickLoops nextCtx].
  rewrite until_plain by (units; lia).
  destruct (biased_split (Deadline (timer w) - now)
              (set_Delimiter (blinked (Delimiter (timer w))) (timer w)))
    as [HM HS]; [units; lia |].
  rewrite HM, HS. repeat split; reflexivity.
Qed.

Lemma Tick_before_deadline_witness :
  (10 * Second < Deadline (timer (exec (Start true 0) (New 0)))) /\
  (Deadline (timer (exec (Start true 0) (New 0))) - 10 * Second
     <= maxDuration - 200 * Millisecond) /\
  MinutesText (timer (exec (Tick (10 * Second)) (exec (Start true 0) (New 0))))
    = Sprintf_2d
        ((Deadline (timer (exec (Start true 0) (New 0))) - 10 * Second
          + 200 * Millisecond) / Minute).
Proof.
  assert (H1 : 10 * Second < Deadline (timer (exec (Start true 0) (New 0))))
    by (vm_compute; reflexivity).
  assert (H2 : Deadline (timer (exec (Start true 0) (New 0))) - 10 * Second
               <= maxDuration - 200 * Millisecond)
    by (vm_compute; discriminate).
  split; [exact H1 |]. split; [exact H2 |].
  exact (proj1 (Tick_before_deadline (10 * Second)
                  (exec (Start true 0) (New 0)) H1 H2)).
Defined.

Lemma blinked_twice (c : Gray) : blinked (blinked (blinked c)) = blinked c.
Proof.
  assert (H : blinked c = mkGray 22 \/ blinked c = mkGray 128)
    by (unfold blinked; destruct (10000 <? _); auto).
  destruct H as [-> | ->]; reflexivity.
Qed.

Lemma blinked_changes (c : Gray) : blinked (blinked c) <> blinked c.
Proof.
  assert (H : blinked c = mkGray 22 \/ blinked c = mkGray 128)
    by (unfold blinked; destruct (10000 <? _); auto).
  destruct H as [-> | ->]; vm_compute; discriminate.
Qed.

(** X2: the delimiter blinks with every tick, whichever way the tick
    goes: after any tick it is one of the grays 22 and 128, the next tick
    gives the other one, and the one after gives the first again. *)
Theorem delimiter_blinks (t1 t2 t3 : Time) (w : World) :
  let d1 := Delimiter (timer (exec (Tick t1) w)) in
  let d2 := Delimiter (timer (exec (Tick t1 ;; Tick t2) w)) in
  let d3 := Delimiter (timer (exec (Tick t1 ;; Tick t2 ;; Tick t3) w)) in
  (d1 = mkGray 22 \/ d1 = mkGray 128) /\
  d2 <> d1 /\
  (d2 = mkGray 22 \/ d2 = mkGray 128) /\
  d3 = d1.
Proof.
  cbn zeta. rewrite !exec_seq, !Tick_delimiter.
  assert (H : forall c, blinked c = mkGray 22 \/ blinked c = mkGray 128)
    by (intros c; unfold blinked; destruct (10000 <? _); auto).
  split; [apply H |].
  split; [apply blinked_changes |].
  split; [apply H | apply blinked_twice].
Qed.

(** X3: the deadline is not moved when a phase ends, so a second tick at
    or after it ends the new phase too: after two such ticks the timer is
    back in the phase it was in, shows that phase's label and whole
    interval, is idle, and has the deadline it had. *)
Theorem two_expired_ticks_restore_phase (t1 t2 : Time) (w : World) :
  Deadline (timer w) <= t1 ->
  Deadline (timer w) <= t2 ->
  let p := timer w in
  let p' := timer (exec (Tick t1 ;; Tick t2) w) in
  let interval := if IsWork p then NextWorkInterval p else NextRestInterval p in
  IsWork p' = IsWork p /\
  Description p' = (if IsWork p then "FOCUS" else "REST")%string /\
  MinutesText p' = Sprintf_2d (minutesOf (biased interval)) /\
  SecondsText p' = Sprintf_02d (secondsOf (biased interval)) /\
  Deadline p' = Deadline p /\
  NextWorkInterval p' = NextWorkInterval p /\
  NextRestInterval p' = NextRestInterval p /\
  TickerCancel p' = None.
Proof.
  intros H1 H2. cbn zeta. rewrite exec_seq.
  assert (Hd : Deadline (timer (exec (Tick t1) w)) = Deadline (timer w)).
  { rewrite Tick_expired_timer by exact H1. rewrite setIsWork_fields.
    reflexivity. }
  rewrite (Tick_expired_timer t2) by (rewrite Hd; exact H2).
  rewrite (Tick_expired_timer t1) by exact H1.
  rewrite !setIsWork_fields. cbn.
  destruct (IsWork (timer w)); cbn; repeat split; reflexivity.
Qed.

Lemma two_expired_ticks_restore_phase_witness :
  (Deadline (timer (New 0)) <= 61 * Minute) /\
  (Deadline (timer (New 0)) <= 62 * Minute) /\
  IsWork (timer (exec (Tick (61 * Minute) ;; Tick (62 * Minute)) (New 0)))
    = IsWork (timer (New 0)).
Proof.
  assert (H1 : Deadline (timer (New 0)) <= 61 * Minute)
    by (vm_compute; discriminate).
  assert (H2 : Deadline (timer (New 0)) <= 62 * Minute)
    by (vm_compute; discriminate).
  split; [exact H1 |]. split; [exact H2 |].
  exact (proj1 (two_expired_ticks_restore_phase (61 * Minute) (62 * Minute)
                  (New 0) H1 H2)).
Defined.

Lemma Tick_expired_runtime (now : Time) (w : World) :
  Deadline (timer w) <= now ->
  cancelled (exec (Tick now) w)
    = match TickerCancel (timer w) with
      | Some c => {[ c ]} ∪ cancelled w
      | None => cancelled w
      end /\
  tickLoops (exec (Tick now) w) = tickLoops w.
Proof.
  intros H. rewrite Tick_cases. cbn zeta.
  apply until_sign in H. apply Z.leb_le in H. rewrite H.
  match goal with
  | |- context [exec endTimer ?w1] =>
      destruct (endTimerWith_fields audioEnabled w1) as (_ & Hc & Hl & _);
      fold endTimer in Hc, Hl; rewrite Hc, Hl
  end.
  split; reflexivity.
Qed.

(** X4: the countdown that [Start] begins runs out by itself: the loop
    ticks while the deadline is ahead; its first tick at or after the
    deadline ends the phase (the other phase's label is shown, the handle
    is cleared, the context of the loop is cancelled); the loop then
    returns at its [select] without touching the timer. *)
Theorem countdown_runs_out
    (isWork : bool) (now made : Time) (lag : nat -> Duration) (n : nat)
    (w : World) :
  let w' := exec (Start isWork now) w in
  let i := length (tickLoops w) in
  let due (j : nat) := Add (tickerTime made Second j) (lag j) in
  (forall j, (j <= n)%nat -> due j < Deadline (timer w')) ->
  Deadline (timer w') <= due (S n) ->
  exists w_n w_end,
    runLoop i made lag n w' = Some w_n /\
    takeTicks i made lag (S n) 1 w_n = Some w_end /\
    IsWork (timer w_end) = negb isWork /\
    Description (timer w_end) = (if isWork then "REST" else "FOCUS")%string /\
    Deadline (timer w_end) = Deadline (timer w') /\
    TickerCancel (timer w_end) = None /\
    nextCtx w ∈ cancelled w_end /\
    forall t, exists w_ret,
      stepGoroutine i CtxDone t w_end = Some w_ret /\
      timer w_ret = timer w_end /\
      tickLoops w_ret !! i = Some (mkGoroutine (nextCtx w) Second Returned).
Proof.
  cbn zeta. intros Hahead Hdue.
  destruct (runLoop_after_Start isWork now made lag n w Hahead)
    as (w_n & Hrun & B1 & B2 & B3 & B6 & B7 & B9 & Hi & _).
  destruct (Start_runtime isWork now w) as (_ & _ & Ht & _).
  pose proof (Start_timer isWork now w) as Hp. cbn zeta in Hp.
  rewrite setIsWork_fields in Hp.
  assert (Hw : IsWork (timer (exec (Start isWork now) w)) = isWork)
    by (rewrite Hp; reflexivity).
  rewrite Ht in B6. rewrite Hw in B2.
  set (t := Add (tickerTime made Second (S n)) (lag (S n))) in *.
  assert (Hexp : Deadline (timer w_n) <= t) by (rewrite B3; exact Hdue).
  destruct (Tick_expired_runtime t w_n Hexp) as [Hc Hl].
  pose proof (Tick_expired_timer t w_n Hexp) as Hpe.
  rewrite setIsWork_fields in Hpe. rewrite B6 in Hc.
  exists w_n, (exec (Tick t) w_n).
  split; [exact Hrun |]. split.
  { cbn [takeTicks]. rewrite Hi. cbn [gPc gPeriod].
    unfold stepGoroutine. rewrite Hi. reflexivity. }
  assert (E1 : IsWork (timer (exec (Tick t) w_n)) = negb isWork)
    by (rewrite Hpe, B2; reflexivity).
  assert (E2 : Description (timer (exec (Tick t) w_n))
               = (if isWork then "REST" else "FOCUS")%string)
    by (rewrite Hpe, B2; destruct isWork; reflexivity).
  assert (E3 : Deadline (timer (exec (Tick t) w_n))
               = Deadline (timer (exec (Start isWork now) w)))
    by (rewrite Hpe; exact B3).
  assert (E4 : TickerCancel (timer (exec (Tick t) w_n)) = None)
    by (rewrite Hpe; reflexivity).
  split; [exact E1 |]. split; [exact E2 |]. split; [exact E3 |].
  split; [exact E4 |]. split.
  { rewrite Hc. apply elem_of_union. left. apply elem_of_singleton.
    reflexivity. }
  intros t'.
  apply (cancelled_loop_returns (length (tickLoops w))
           (mkGoroutine (nextCtx w) Second AtSelect) t' (exec (Tick t) w_n)).
  - rewrite Hl. exact Hi.
  - reflexivity.
  - cbn [gCtx]. rewrite Hc. apply elem_of_union. left.
    apply elem_of_singleton. reflexivity.
Qed.

Lemma countdown_runs_out_witness :
  (forall j, (j <= 2)%nat ->
     Add (tickerTime 0 Second j) ((fun _ : nat => 0) j)
     < Deadline (timer (exec (Start true 0)
                          (exec (SetNextInterval (3 * Second) 0) (New 0))))) /\
  (Deadline (timer (exec (Start true 0)
                      (exec (SetNextInterval (3 * Second) 0) (New 0))))
   <= Add (tickerTime 0 Second 3) ((fun _ : nat => 0) 3%nat)) /\
  exists w_n w_end,
    runLoop 0 0 (fun _ => 0) 2
      (exec (Start true 0) (exec (SetNextInterval (3 * Second) 0) (New 0)))
      = Some w_n /\
    takeTicks 0 0 (fun _ => 0) 3 1 w_n = Some w_end /\
    IsWork (timer w_end) = false.
Proof.
  assert (H1 : forall j, (j <= 2)%nat ->
     Add (tickerTime 0 Second j) ((fun _ : nat => 0) j)
     < Deadline (timer (exec (Start true 0)
                          (exec (SetNextInterval (3 * Second) 0) (New 0))))).
  { intros j Hj.
    change (Deadline (timer (exec (Start true 0)
              (exec (SetNextInterval (3 * Second) 0) (New 0)))))
      with (3 * Second).
    unfold tickerTime, Add. units. lia. }
  assert (H2 : Deadline (timer (exec (Start true 0)
                      (exec (SetNextInterval (3 * Second) 0) (New 0))))
               <= Add (tickerTime 0 Second 3) ((fun _ : nat => 0) 3%nat))
    by (vm_compute; discriminate).
  split; [exact H1 |]. split; [exact H2 |].
  destruct (countdown_runs_out true 0 0 (fun _ => 0) 2
              (exec (SetNextInterval (3 * Second) 0) (New 0)) H1 H2)
    as (w_n & w_end & Hrun & Hend & Hw & _).
  exists w_n, w_end. split; [exact Hrun |]. split; [exact Hend |]. exact Hw.
Defined.

(** ** Interval selection and Start *)

(** X5: an interval selected with [SetNextInterval] is the one the next
    [Start] of the phase current at the selection counts down from; a
    [Start] of the other phase counts down from that phase's own
    interval. *)
Theorem selected_interval_is_started
    (d : Duration) (now t : Time) (b : bool) (w : World) :
  let p := timer w in
  let w' := exec (SetNextInterval d now ;; Start b t) w in
  let interval :=
    if Bool.eqb b (IsWork p) then d
    else if b then NextWorkInterval p else NextRestInterval p in
  IsWork (timer w') = b /\
  Deadline (timer w') = Add t interval /\
  MinutesText (timer w') = Sprintf_2d (minutesOf (biased interval)) /\
  SecondsText (timer w') = Sprintf_02d (secondsOf (biased interval)).
Proof.
  cbn zeta. rewrite exec_seq, Start_timer, setIsWork_fields.
  run_unfold. cbn.
  destruct b, (IsWork (timer w)); cbn; repeat split; reflexivity.
Qed.

(** ** Stop *)

(** X6: a second [StopTimer] changes nothing: the label is already empty,
    the handle already cleared, and no context is cancelled again. *)
Theorem StopTimer_twice (w : World) :
  exec (StopTimer ;; StopTimer) w = exec StopTimer w.
Proof.
  rewrite exec_seq. run_unfold. cbn.
  destruct (TickerCancel (timer w)); reflexivity.
Qed.

(** ** The time shown *)

Lemma whole_seconds (t : Duration) :
  0 <= t <= maxDuration ->
  60 * minutesOf t + secondsOf t = t / Second.
Proof.
  intros H.
  rewrite minutesOf_nonneg by exact H.
  rewrite secondsOf_nonneg by lia.
  assert (HS : 0 < Second) by reflexivity.
  assert (HM : Minute = 60 * Second) by reflexivity.
  rewrite (Z.div_mod t Minute) at 3 by (rewrite HM; lia).
  rewrite HM at 3.
  replace (60 * Second * (t / Minute) + t mod Minute)
    with (60 * (t / Minute) * Second + t mod Minute) by lia.
  rewrite Z.div_add_l by lia. reflexivity.
Qed.

(** X7: the split into minutes and seconds loses nothing above the
    second: sixty times the minutes shown plus the seconds shown are the
    whole seconds of the duration with its bias, and the seconds shown are
    below sixty. *)
Theorem shown_time_is_whole_seconds (d : Duration) :
  - (200 * Millisecond) <= d <= maxDuration - 200 * Millisecond ->
  60 * minutesOf (biased d) + secondsOf (biased d)
    = (d + 200 * Millisecond) / Second /\
  0 <= secondsOf (biased d) < 60.
Proof.
  intros H. rewrite biased_in_range by exact H. split.
  - apply whole_seconds. lia.
  - apply secondsOf_bound. lia.
Qed.

Lemma shown_time_is_whole_seconds_witness :
  (- (200 * Millisecond) <= 59900 * Millisecond
     <= maxDuration - 200 * Millisecond) /\
  60 * minutesOf (biased (59900 * Millisecond))
    + secondsOf (biased (59900 * Millisecond))
    = (59900 * Millisecond + 200 * Millisecond) / Second.
Proof.
  assert (H : - (200 * Millisecond) <= 59900 * Millisecond
              <= maxDuration - 200 * Millisecond) by (units; lia).
  split; [exact H |].
  exact (proj1 (shown_time_is_whole_seconds (59900 * Millisecond) H)).
Defined.

(** X8: the time shown never goes up while the deadline stands: of two
    ticks before the deadline, the later one shows no more seconds than
    the earlier one. *)
Theorem later_tick_shows_no_more (now1 now2 deadline : Time) :
  now1 <= now2 -> now2 < deadline ->
  deadline - now1 <= maxDuration - 200 * Millisecond ->
  60 * minutesOf (biased (Until now2 deadline))
    + secondsOf (biased (Until now2 deadline))
  <= 60 * minutesOf (biased (Until now1 deadline))
     + secondsOf (biased (Until now1 deadline)).
Proof.
  intros H12 H2 Hmax.
  rewrite !until_plain by (units; lia).
  rewrite !biased_in_range by (units; lia).
  rewrite !whole_seconds by (units; lia).
  apply Z.div_le_mono; [reflexivity | lia].
Qed.

Lemma later_tick_shows_no_more_witness :
  (1 * Second <= 2 * Second) /\ (2 * Second < 60 * Minute) /\
  (60 * Minute - 1 * Second <= maxDuration - 200 * Millisecond) /\
  60 * minutesOf (biased (Until (2 * Second) (60 * Minute)))
    + secondsOf (biased (Until (2 * Second) (60 * Minute)))
  <= 60 * minutesOf (biased (Until (1 * Second) (60 * Minute)))
     + secondsOf (biased (Until (1 * Second) (60 * Minute))).
Proof.
  assert (H1 : 1 * Second <= 2 * Second) by (units; lia).
  assert (H2 : 2 * Second < 60 * Minute) by (units; lia).
  assert (H3 : 60 * Minute - 1 * Second <= maxDuration - 200 * Millisecond)
    by (units; lia).
  split; [exact H1 |]. split; [exact H2 |]. split; [exact H3 |].
  exact (later_tick_shows_no_more (1 * Second) (2 * Second) (60 * Minute)
           H1 H2 H3).
Defined.

Lemma wrap64_in_range (z : Z) :
  minDuration <= z <= maxDuration -> wrap64 z = z.
Proof.
  intros H. unfold wrap64. units. rewrite Z.mod_small; lia.
Qed.

(** X9: a negative duration is not clamped.  With its bias between minus
    one minute and minus one second, the minutes shown are [" 0"] and the
    seconds shown are the unsigned reading of a negative number, twenty
    digits long. *)
Theorem negative_duration_shown (d : Duration) (p : Pomodoro) :
  - Minute < d + 200 * Millisecond <= - Second ->
  MinutesText (setTimeLeft d p) = " 0"%string /\
  secondsOf (biased d) = 2 ^ 64 - (- (d + 200 * Millisecond)) / Second /\
  String.length (SecondsText (setTimeLeft d p)) = 20%nat.
Proof.
  intros H.
  assert (HS : 0 < Second) by reflexivity.
  assert (HM : 0 < Minute) by reflexivity.
  set (t := d + 200 * Millisecond) in *.
  assert (Hb : biased d = t).
  { unfold biased. fold t. apply wrap64_in_range. units. lia. }
  assert (Hk : 1 <= (- t) / Second < 60).
  { split.
    - apply Z.div_le_lower_bound; lia.
    - apply Z.div_lt_upper_bound; [lia |]. unfold Minute in *. lia. }
  assert (Hq : Z.quot t Minute = 0).
  { replace t with (- (- t)) by lia. rewrite Z.quot_opp_l by lia.
    rewrite Z.quot_small by lia. reflexivity. }
  assert (Hr : Z.quot (Z.rem t Minute) Second = - ((- t) / Second)).
  { replace t with (- (- t)) at 1 by lia. rewrite Z.rem_opp_l by lia.
    rewrite Z.rem_small by lia. rewrite Z.quot_opp_l by lia.
    rewrite Z.quot_div_nonneg by lia. reflexivity. }
  assert (Hs : secondsOf t = 2 ^ 64 - (- t) / Second).
  { unfold secondsOf, uint. rewrite Hr.
    symmetry. apply Z.mod_unique with (q := -1); lia. }
  unfold setTimeLeft.
  cbn [MinutesText SecondsText set_SecondsText set_MinutesText].
  rewrite Hb. split; [| split].
  - unfold minutesOf. rewrite Hq. reflexivity.
  - exact Hs.
  - rewrite Hs.
    assert (Hc : (((- t) / Second =? 0)
                  || Nat.eqb (String.length
                                (Sprintf_02d (2 ^ 64 - (- t) / Second))) 20)
                 = true).
    { apply (below_checked
               (fun k => (k =? 0)
                         || Nat.eqb (String.length (Sprintf_02d (2 ^ 64 - k))) 20)
               60); [vm_compute; reflexivity | lia]. }
    apply orb_true_iff in Hc as [Hc | Hc].
    + apply Z.eqb_eq in Hc. lia.
    + apply Nat.eqb_eq. exact Hc.
Qed.

Lemma negative_duration_shown_witness :
  (- Minute < - (30 * Second) + 200 * Millisecond <= - Second) /\
  MinutesText (setTimeLeft (- (30 * Second)) newPomodoro) = " 0"%string.
Proof.
  assert (H : - Minute < - (30 * Second) + 200 * Millisecond <= - Second)
    by (units; lia).
  split; [exact H |].
  exact (proj1 (negative_duration_shown (- (30 * Second)) newPomodoro H)).
Defined.

(** ** What only Start does *)

Lemma stepGoroutine_cases (i : nat) (ev : Wakeup) (now : Time) (w w' : World) :
  stepGoroutine i ev now w = Some w' ->
  w' = exec (setPc i AtSelect) (exec (Tick now) w) \/
  w' = exec (setPc i Returned) w \/
  w' = exec (Tick now) w.
Proof.
  unfold stepGoroutine.
  destruct (tickLoops w !! i) as [g |]; [| discriminate].
  destruct (gPc g), ev; try discriminate.
  - intros H. injection H as <-. left. apply exec_seq.
  - intros H. injection H as <-. left. apply exec_seq.
  - destruct (decide (gCtx g ∈ cancelled w)); [| discriminate].
    intros H. injection H as <-. right. left. reflexivity.
  - intros H. injection H as <-. right. right. reflexivity.
Qed.

Lemma setPc_runtime (i : nat) (pc : Pc) (w : World) :
  nextCtx (exec (setPc i pc) w) = nextCtx w /\
  gCtx <$> tickLoops (exec (setPc i pc) w) = gCtx <$> tickLoops w /\
  timer (exec (setPc i pc) w) = timer w /\
  cancelled (exec (setPc i pc) w) = cancelled w.
Proof.
  split; [reflexivity |]. split; [apply gCtx_alter_pc |].
  split; reflexivity.
Qed.

(** Every action but [Start] makes no context and launches no goroutine;
    on an idle timer it cancels nothing and leaves the timer idle. *)
Lemma perform_without_Start (a : Action) (w w' : World) :
  perform a w = Some w' -> isStart a = false ->
  nextCtx w' = nextCtx w /\
  gCtx <$> tickLoops w' = gCtx <$> tickLoops w /\
  (TickerCancel (timer w) = None ->
   TickerCancel (timer w') = None /\ cancelled w' = cancelled w).
Proof.
  destruct a as [d now | d | b now | | now | | i ev now | lib];
    cbn [perform isStart]; intros Hstep Hns; try discriminate;
    try (injection Hstep as <-).
  - run_unfold. cbn. destruct (IsWork (timer w)); cbn; auto.
  - cbn. auto.
  - destruct (StopTimer_fields w) as (Hp & Hc & Hl & Hn).
    rewrite Hn, Hl, Hp, Hc. split; [reflexivity |]. split; [reflexivity |].
    intros E. rewrite E. split; reflexivity.
  - destruct (Tick_runtime now w) as (Hn & Hl & _ & _ & Hidle).
    rewrite Hn, Hl. auto.
  - unfold EndTimer.
    destruct (endTimerWith_fields audioEnabled w) as (Hp & Hc & Hl & Hn & _).
    fold endTimer in Hp, Hc, Hl, Hn.
    rewrite Hn, Hl, Hp, Hc, setIsWork_fields.
    split; [reflexivity |]. split; [reflexivity |].
    intros E. rewrite E. split; reflexivity.
  - destruct (Tick_runtime now w) as (Hn & Hl & _ & _ & Hidle).
    apply stepGoroutine_cases in Hstep as [-> | [-> | ->]].
    + destruct (setPc_runtime i AtSelect (exec (Tick now) w))
        as (Sn & Sl & St & Sc).
      rewrite Sn, Sl, St, Sc, Hn, Hl. auto.
    + destruct (setPc_runtime i Returned w) as (Sn & Sl & St & Sc).
      rewrite Sn, Sl, St, Sc. auto.
    + rewrite Hn, Hl. auto.
  - unfold stepAlarm in Hstep. destruct (alarms w); [discriminate |].
    injection Hstep as <-. unfold alarmBody.
    destruct (playAlarm lib); cbn; auto.
Qed.

(** X10: only [Start] arms the timer.  Whatever is called or steps on an
    idle timer, as long as it is not [Start], the timer stays idle, no
    context is made or cancelled and no goroutine is launched. *)
Theorem idle_until_Start (acts : list Action) (w w' : World) :
  forallb (fun a => negb (isStart a)) acts = true ->
  TickerCancel (timer w) = None ->
  performAll acts w = Some w' ->
  TickerCancel (timer w') = None /\
  cancelled w' = cancelled w /\
  nextCtx w' = nextCtx w /\
  gCtx <$> tickLoops w' = gCtx <$> tickLoops w.
Proof.
  revert w. induction acts as [| a acts IH]; intros w Hns Hidle Hrun.
  - cbn in Hrun. injection Hrun as <-. auto.
  - cbn [forallb] in Hns. apply andb_true_iff in Hns as [Ha Hrest].
    apply negb_true_iff in Ha.
    cbn [performAll] in Hrun.
    destruct (perform a w) as [w1 |] eqn:E; [| discriminate].
    destruct (perform_without_Start a w w1 E Ha) as (Hn & Hl & Hi).
    destruct (Hi Hidle) as [Hidle1 Hc].
    destruct (IH w1 Hrest Hidle1 Hrun) as (R1 & R2 & R3 & R4).
    repeat split; congruence.
Qed.

Lemma idle_until_Start_witness :
  forallb (fun a => negb (isStart a))
    [CallSetNextInterval (5 * Minute) 0; CallTick (6 * Minute); CallStopTimer]
    = true /\
  TickerCancel (timer (New 0)) = None /\
  performAll
    [CallSetNextInterval (5 * Minute) 0; CallTick (6 * Minute); CallStopTimer]
    (New 0)
    = Some (exec (SetNextInterval (5 * Minute) 0 ;; Tick (6 * Minute) ;; StopTimer)
              (New 0)) /\
  TickerCancel
    (timer (exec (SetNextInterval (5 * Minute) 0 ;; Tick (6 * Minute) ;; StopTimer)
              (New 0))) = None.
Proof.
  assert (H1 : forallb (fun a => negb (isStart a))
                 [CallSetNextInterval (5 * Minute) 0; CallTick (6 * Minute);
                  CallStopTimer] = true) by reflexivity.
  assert (H2 : TickerCancel (timer (New 0)) = None) by reflexivity.
  assert (H3 : performAll
                 [CallSetNextInterval (5 * Minute) 0; CallTick (6 * Minute);
                  CallStopTimer] (New 0)
               = Some (exec (SetNextInterval (5 * Minute) 0 ;;
                             Tick (6 * Minute) ;; StopTimer) (New 0)))
    by (cbn [performAll perform]; rewrite !exec_seq; reflexivity).
  split; [exact H1 |]. split; [exact H2 |]. split; [exact H3 |].
  exact (proj1 (idle_until_Start _ _ _ H1 H2 H3)).
Defined.

Lemma perform_ctxs (a : Action) (w w' : World) :
  perform a w = Some w' ->
  gCtx <$> tickLoops w = seq 0 (nextCtx w) ->
  gCtx <$> tickLoops w' = seq 0 (nextCtx w').
Proof.
  intros Hstep Hseq.
  destruct (isStart a) eqn:Ea.
  - destruct a; try discriminate. cbn [perform] in Hstep.
    injection Hstep as <-.
    destruct (Start_runtime isWork now w) as (Hn & Hl & _).
    rewrite Hn, Hl, fmap_app, Hseq, seq_S. reflexivity.
  - destruct (perform_without_Start a w w' Hstep Ea) as (Hn & Hl & _).
    rewrite Hn, Hl. exact Hseq.
Qed.

(** X11: contexts and goroutines go in step.  In every world the program
    reaches, the goroutine number [i] runs on the context number [i], and
    there are as many goroutines as contexts made: each [Start] makes one
    of each, and nothing else makes or removes any. *)
Theorem one_goroutine_per_context
    (now0 : Time) (acts : list Action) (w : World) :
  performAll acts (New now0) = Some w ->
  gCtx <$> tickLoops w = seq 0 (nextCtx w) /\
  length (tickLoops w) = nextCtx w /\
  length (List.filter isStart acts) = nextCtx w.
Proof.
  assert (Hgen : forall acts w0 w1,
            performAll acts w0 = Some w1 ->
            gCtx <$> tickLoops w0 = seq 0 (nextCtx w0) ->
            gCtx <$> tickLoops w1 = seq 0 (nextCtx w1) /\
            (length (List.filter isStart acts) + nextCtx w0 = nextCtx w1)%nat).
  { clear. induction acts as [| a acts IH]; intros w0 w1 Hrun Hseq.
    - cbn in Hrun. injection Hrun as <-. auto.
    - cbn [performAll] in Hrun.
      destruct (perform a w0) as [w2 |] eqn:E; [| discriminate].
      pose proof (perform_ctxs a w0 w2 E Hseq) as Hseq2.
      destruct (IH w2 w1 Hrun Hseq2) as [R1 R2].
      split; [exact R1 |].
      cbn [List.filter]. destruct (isStart a) eqn:Ea.
      + destruct a; try discriminate. cbn [perform] in E.
        injection E as <-.
        destruct (Start_runtime isWork now w0) as (Hn & _).
        rewrite Hn in R2. cbn [length]. lia.
      + destruct (perform_without_Start a w0 w2 E Ea) as (Hn & _).
        rewrite Hn in R2. exact R2. }
  intros Hrun.
  destruct (Hgen acts (New now0) w Hrun eq_refl) as [R1 R2].
  split; [exact R1 |]. split.
  - rewrite <- (length_fmap gCtx), R1. apply length_seq.
  - change (nextCtx (New now0)) with O in R2. lia.
Qed.

Lemma one_goroutine_per_context_witness :
  performAll [CallStart true 0; CallStopTimer; CallStart false 9] (New 0)
    = Some (exec (Start true 0 ;; StopTimer ;; Start false 9) (New 0)) /\
  length (tickLoops (exec (Start true 0 ;; StopTimer ;; Start false 9) (New 0)))
    = nextCtx (exec (Start true 0 ;; StopTimer ;; Start false 9) (New 0)).
Proof.
  assert (H : performAll [CallStart true 0; CallStopTimer; CallStart false 9]
                (New 0)
              = Some (exec (Start true 0 ;; StopTimer ;; Start false 9) (New 0)))
    by (cbn [performAll perform]; rewrite !exec_seq; reflexivity).
  split; [exact H |].
  exact (proj1 (proj2 (one_goroutine_per_context 0 _ _ H))).
Defined.

Lemma perform_no_alarm (a : Action) (w w' : World) :
  perform a w = Some w' -> alarms w = O ->
  alarms w' = O /\ logged w' = logged w.
Proof.
  destruct a as [d now | d | b now | | now | | i ev now | lib];
    cbn [perform]; intros Hstep H0; try (injection Hstep as <-).
  - run_unfold. cbn. destruct (IsWork (timer w)); cbn; auto.
  - cbn. auto.
  - run_unfold.
    destruct b; cbn; destruct (TickerCancel (timer w)); cbn; auto.
  - run_unfold. cbn. destruct (TickerCancel (timer w)); cbn; auto.
  - destruct (Tick_runtime now w) as (_ & _ & Ha & Hg & _).
    rewrite Ha, Hg. auto.
  - unfold EndTimer.
    destruct (endTimerWith_fields audioEnabled w) as (_ & _ & _ & _ & Ha & Hg).
    fold endTimer in Ha, Hg. rewrite Ha, Hg. auto.
  - destruct (Tick_runtime now w) as (_ & _ & Ha & Hg & _).
    apply stepGoroutine_cases in Hstep as [-> | [-> | ->]].
    + change (alarms (exec (Tick now) w) = O /\
              logged (exec (Tick now) w) = logged w).
      rewrite Ha, Hg. auto.
    + cbn. auto.
    + rewrite Ha, Hg. auto.
  - unfold stepAlarm in Hstep. rewrite H0 in Hstep. discriminate.
Qed.

(** X12: with [audioEnabled] off the alarm is dead code.  In every world
    the program reaches no alarm goroutine was launched, nothing was
    written to the log, and no alarm can run. *)
Theorem alarm_never_plays
    (now0 : Time) (acts : list Action) (w : World) (lib : AudioLib) :
  performAll acts (New now0) = Some w ->
  alarms w = O /\ logged w = [] /\ stepAlarm lib w = None.
Proof.
  assert (Hgen : forall acts w0 w1,
            performAll acts w0 = Some w1 -> alarms w0 = O ->
            alarms w1 = O /\ logged w1 = logged w0).
  { clear. induction acts as [| a acts IH]; intros w0 w1 Hrun H0.
    - cbn in Hrun. injection Hrun as <-. auto.
    - cbn [performAll] in Hrun.
      destruct (perform a w0) as [w2 |] eqn:E; [| discriminate].
      destruct (perform_no_alarm a w0 w2 E H0) as [Ha Hg].
      destruct (IH w2 w1 Hrun Ha) as [R1 R2].
      split; [exact R1 | congruence]. }
  intros Hrun.
  destruct (Hgen acts (New now0) w Hrun eq_refl) as [R1 R2].
  split; [exact R1 |]. split; [exact R2 |].
  unfold stepAlarm. rewrite R1. reflexivity.
Qed.

Lemma alarm_never_plays_witness :
  performAll [CallStart true 0; CallTick (61 * Minute)] (New 0)
    = Some (exec (Start true 0 ;; Tick (61 * Minute)) (New 0)) /\
  alarms (exec (Start true 0 ;; Tick (61 * Minute)) (New 0)) = O.
Proof.
  assert (H : performAll [CallStart true 0; CallTick (61 * Minute)] (New 0)
              = Some (exec (Start true 0 ;; Tick (61 * Minute)) (New 0)))
    by (cbn [performAll perform]; rewrite !exec_seq; reflexivity).
  split; [exact H |].
  exact (proj1 (alarm_never_plays 0 _ _
                  (mkAudioLib None 0 None None 0 None) H)).
Defined.
